(** * vmi-unpack: the VAD-directed dumper and the output module

    A shallow embedding of the dumper (process_layer, extract_field_value,
    get_node_vadtype, get_node_isprivate, get_node_protection,
    get_node_filename, handle_node, vad_dump_process, vad_iterator) and of
    the sequence counter of [src/output.c] (dump_count,
    volatility_callback_vaddump and the functions it calls), with the
    properties of the VAD walk, of the segment cap, of bit-field extraction
    and of dump numbering.

    Guest memory is reached only through libVMI, which is not part of the
    repository: its read primitives are fields of [vmi_instance_t], the
    value the C code passes around as [vmi]. *)

From Stdlib Require Import ZArith Lia List Sorted String.
From Stdlib.Init Require Import Byte.
From stdpp Require Import base list sorting.

Local Open Scope Z_scope.

(** * Part I: the program *)

(** ** Machine integers *)

Module U64.

Definition width : Z := 64.
Definition modulus : Z := 2 ^ width.

(** [uint64_t] and [addr_t] arithmetic wraps modulo 2^64. *)
Definition wrap (x : Z) : Z := x mod modulus.

Definition add (x y : Z) : Z := wrap (x + y).
Definition sub (x y : Z) : Z := wrap (x - y).

(** C leaves a shift by 64 or more undefined.  The model follows the shift
    instruction of x86-64, the only host the project builds for, which
    takes the count modulo 64. *)
Definition shl (x n : Z) : Z := wrap (Z.shiftl x (n mod width)).
Definition shr (x n : Z) : Z := Z.shiftr x (n mod width).

(** Conversion of a 64-bit pattern to [gint64]. *)
Definition to_signed (x : Z) : Z :=
  let u := wrap x in if u <? 2 ^ 63 then u else u - modulus.

End U64.

Module I32.

Definition modulus : Z := 2 ^ 32.
Definition max_signed : Z := 2 ^ 31 - 1.

(** [int] is 32 bits wide on the host; an increment past [INT_MAX] is
    modelled as the two's-complement wrap the hardware performs. *)
Definition wrap (x : Z) : Z :=
  let u := x mod modulus in if u <=? max_signed then u else u - modulus.

End I32.

(** ** Bit fields of the packed flags word *)

(** [extract_field_value]: shift the field down to bit 0, build the mask
    [(1ULL << (end - start + 1)) - 1] in a [gint64], and AND it in. *)
Definition extract_field_value (packed start end_ : Z) : Z :=
  let packed := U64.shr packed start in
  let mask := U64.to_signed (U64.sub (U64.shl 1 (U64.add (U64.sub end_ start) 1)) 1) in
  let packed := Z.land packed (U64.wrap mask) in
  packed.

(** ** libVMI and the guest *)

Inductive status_t := VMI_SUCCESS | VMI_FAILURE.

Definition status_eqb (a b : status_t) : bool :=
  match a, b with
  | VMI_SUCCESS, VMI_SUCCESS | VMI_FAILURE, VMI_FAILURE => true
  | _, _ => false
  end.

(** A heap block: the size it was allocated with and the bytes written to
    its front so far. *)
Record buffer := Buffer { capacity : Z; bytes : list byte }.

(** [unicode_string_t] of libVMI; [contents] and [encoding] are pointers
    and may be null. *)
Record unicode_string_t := UnicodeString {
  ustr_length : Z;
  contents : option (list byte);
  encoding : option string;
}.

(** [(const unicode_string_t) {0}] *)
Definition unicode_string_zero : unicode_string_t :=
  {| ustr_length := 0; contents := None; encoding := None |}.

Module MemSeg.
(** [mem_seg_t] of vmi/process.h. *)
Record t := Make { base_va : Z; size : Z }.
End MemSeg.

(** The fields of [vmi_event_t] the two modules read. *)
Record vmi_event_t := VmiEvent {
  mem_event_gla : Z;
  x86_regs_rip : Z;
  x86_regs_cr3 : Z;
}.

(** The paused guest as libVMI shows it.  A read of a pointer or of a
    64-bit word either fails or yields a value; a bulk read yields a status
    and the bytes it could copy; a Unicode-string read yields null on
    failure.  The last three fields stand for helpers of vmi/process.h,
    which answer from the same guest state. *)
Record vmi_instance_t := VmiInstance {
  read_addr_va : Z -> Z -> option Z;
  read_64_va : Z -> Z -> option Z;
  read_va : Z -> Z -> Z -> status_t * list byte;
  read_unicode_str_va : Z -> Z -> option unicode_string_t;
  convert_str_encoding : unicode_string_t -> string -> status_t * unicode_string_t;
  vmi_current_find_segment : vmi_event_t -> Z -> MemSeg.t;
  windows_find_eprocess_pgd : Z -> Z;
  vmi_get_eprocess_vadroot : Z -> Z;
}.

(** [vmi_read_addr_va(vmi, vaddr, pid, &value)]: the second component is
    the content of [value] after the call; a failed read leaves it as it
    was. *)
Definition vmi_read_addr_va (vmi : vmi_instance_t) (vaddr pid value : Z) : status_t * Z :=
  match read_addr_va vmi vaddr pid with
  | Some v => (VMI_SUCCESS, U64.wrap v)
  | None => (VMI_FAILURE, value)
  end.

(** [vmi_read_64_va(vmi, vaddr, pid, &value)] *)
Definition vmi_read_64_va (vmi : vmi_instance_t) (vaddr pid value : Z) : status_t * Z :=
  match read_64_va vmi vaddr pid with
  | Some v => (VMI_SUCCESS, U64.wrap v)
  | None => (VMI_FAILURE, value)
  end.

(** [vmi_read_va(vmi, vaddr, pid, count, buf, &bytes_read)]: the buffer
    after the call and the content of [bytes_read]. *)
Definition vmi_read_va (vmi : vmi_instance_t) (vaddr pid count : Z) (buf : buffer)
  : status_t * buffer * Z :=
  let '(st, bs) := read_va vmi vaddr pid count in
  (st, {| capacity := capacity buf; bytes := bs |}, Z.of_nat (length bs)).

Definition vmi_read_unicode_str_va (vmi : vmi_instance_t) (vaddr pid : Z)
  : option unicode_string_t :=
  read_unicode_str_va vmi vaddr pid.

(** [vmi_convert_str_encoding(in, out, enc)]: the status and the content
    of [out] after the call. *)
Definition vmi_convert_str_encoding (vmi : vmi_instance_t) (in_ : unicode_string_t)
  (outencoding : string) : status_t * unicode_string_t :=
  convert_str_encoding vmi in_ outencoding.

(** The same guest with another answer to bulk reads. *)
Definition with_read_va (rv : Z -> Z -> Z -> status_t * list byte) (vmi : vmi_instance_t)
  : vmi_instance_t :=
  {| read_addr_va := read_addr_va vmi;
     read_64_va := read_64_va vmi;
     read_va := rv;
     read_unicode_str_va := read_unicode_str_va vmi;
     convert_str_encoding := convert_str_encoding vmi;
     vmi_current_find_segment := vmi_current_find_segment vmi;
     windows_find_eprocess_pgd := windows_find_eprocess_pgd vmi;
     vmi_get_eprocess_vadroot := vmi_get_eprocess_vadroot vmi |}.

(** [realloc(buf, n)] keeps the front of the block. *)
Definition realloc (buf : buffer) (n : Z) : buffer :=
  {| capacity := n; bytes := take (Z.to_nat n) (bytes buf) |}.

(** ** The rekall profile *)

(** The fields of [process_vmi_windows_rekall] the dumper reads: byte
    offsets into kernel structures and bit ranges of the flags word. *)
Record rekall_t := Rekall {
  mmvad_leftchild : Z;
  mmvad_rightchild : Z;
  mmvad_startingvpn : Z;
  mmvad_endingvpn : Z;
  mmvad_flags : Z;
  mmvad_controlarea : Z;
  controlarea_fileobject : Z;
  fileobject_filename : Z;
  flags_vadtype_start : Z;
  flags_vadtype_end : Z;
  flags_isprivate_start : Z;
  flags_isprivate_end : Z;
  flags_protection_start : Z;
  flags_protection_end : Z;
}.

(** ** Dump jobs and the state of the unpacker process *)

Record vad_seg_t := VadSeg {
  base_va : Z;
  size : Z;
  va_size : Z;
  buf : buffer;
  filename : unicode_string_t;
  vadtype : Z;
  isprivate : Z;
  protection : Z;
}.

(** [segments] is the array of [SEG_COUNT_MAX] pointers that
    vad_dump_process allocates; a slot not written yet is [None]. *)
Record dump_layer_t := DumpLayer {
  pid : Z;
  rip : Z;
  segment_count : nat;
  segments : list (option vad_seg_t);
}.

(** One call of [add_to_dump_queue(buffer, size, pid, rip, base)]. *)
Record layer_t := Layer {
  layer_buffer : buffer;
  layer_size : Z;
  layer_pid : Z;
  layer_rip : Z;
  layer_base : Z;
}.

(** A line handed to printf or fprintf: the format (without its final
    newline) and its arguments. *)
Record message := Message { format : string; args : list Z }.

(** What the dumper changes outside the job it is building: the two output
    streams and the two queues towards the writer thread. *)
Record host_t := Host {
  stderr : list message;
  stdout : list message;
  dump_queue : list layer_t;
  vad_queue : list dump_layer_t;
}.

(** [fprintf(stderr, fmt, ...)] *)
Definition fprintf_stderr (fmt : string) (a : list Z) (h : host_t) : host_t :=
  {| stderr := stderr h ++ [Message fmt a]; stdout := stdout h;
     dump_queue := dump_queue h; vad_queue := vad_queue h |}.

(** [printf(fmt, ...)] *)
Definition printf (fmt : string) (a : list Z) (h : host_t) : host_t :=
  {| stderr := stderr h; stdout := stdout h ++ [Message fmt a];
     dump_queue := dump_queue h; vad_queue := vad_queue h |}.

(** [add_to_dump_queue] lives in dump.c; the call is recorded, with its
    arguments, at the end of the queue. *)
Definition add_to_dump_queue (b : buffer) (sz pid_ rip_ base : Z) (h : host_t) : host_t :=
  {| stderr := stderr h; stdout := stdout h;
     dump_queue := dump_queue h ++ [Layer b sz pid_ rip_ base];
     vad_queue := vad_queue h |}.

(** [queue_vads_to_dump], of dump.c as well: the job joins the queue. *)
Definition queue_vads_to_dump (dump : dump_layer_t) (h : host_t) : host_t :=
  {| stderr := stderr h; stdout := stdout h; dump_queue := dump_queue h;
     vad_queue := vad_queue h ++ [dump] |}.

(** ** Runs that do not complete *)

Inductive fault :=
| OutOfFuel      (* the recursion went deeper than the model was allowed *)
| OutOfBounds.   (* an index past the end of the segments array *)

Inductive outcome (A : Type) :=
| Done (a : A)
| Fault (f : fault).

Arguments Done {A} a.
Arguments Fault {A} f.

#[export] Instance outcome_bind : MBind outcome := fun A B k m =>
  match m with
  | Done a => k a
  | Fault f => Fault f
  end.

(** [void (*traverse_func)(vmi_instance_t, addr_t, void *)]: the visitor
    works on the object behind [data] and on the process state. *)
Definition traverse_func (A : Type) : Type :=
  vmi_instance_t -> Z -> A -> host_t -> outcome (A * host_t).

(** ** The dumper *)

(** Field assignments through a [vad_seg_t *]. *)
Definition set_base_va (v : Z) (s : vad_seg_t) : vad_seg_t :=
  VadSeg v (size s) (va_size s) (buf s) (filename s) (vadtype s) (isprivate s) (protection s).
Definition set_size (v : Z) (s : vad_seg_t) : vad_seg_t :=
  VadSeg (base_va s) v (va_size s) (buf s) (filename s) (vadtype s) (isprivate s) (protection s).
Definition set_va_size (v : Z) (s : vad_seg_t) : vad_seg_t :=
  VadSeg (base_va s) (size s) v (buf s) (filename s) (vadtype s) (isprivate s) (protection s).
Definition set_buf (v : buffer) (s : vad_seg_t) : vad_seg_t :=
  VadSeg (base_va s) (size s) (va_size s) v (filename s) (vadtype s) (isprivate s) (protection s).
Definition set_filename (v : unicode_string_t) (s : vad_seg_t) : vad_seg_t :=
  VadSeg (base_va s) (size s) (va_size s) (buf s) v (vadtype s) (isprivate s) (protection s).
Definition set_vadtype (v : Z) (s : vad_seg_t) : vad_seg_t :=
  VadSeg (base_va s) (size s) (va_size s) (buf s) (filename s) v (isprivate s) (protection s).
Definition set_isprivate (v : Z) (s : vad_seg_t) : vad_seg_t :=
  VadSeg (base_va s) (size s) (va_size s) (buf s) (filename s) (vadtype s) v (protection s).
Definition set_protection (v : Z) (s : vad_seg_t) : vad_seg_t :=
  VadSeg (base_va s) (size s) (va_size s) (buf s) (filename s) (vadtype s) (isprivate s) v.

(** A block as [malloc] hands it out when it succeeds: nothing written
    yet. *)
Definition malloc (n : Z) : buffer := {| capacity := n; bytes := [] |}.

(** [dump->segments[i] = p] together with the writes through it: the slot
    must exist. *)
Definition store_segment (dump : dump_layer_t) (i : nat) (s : vad_seg_t)
  : outcome dump_layer_t :=
  if (i <? length (segments dump))%nat
  then Done {| pid := pid dump; rip := rip dump; segment_count := segment_count dump;
               segments := <[i := Some s]> (segments dump) |}
  else Fault OutOfBounds.

(** [dump->segment_count = n] *)
Definition set_segment_count (n : nat) (dump : dump_layer_t) : dump_layer_t :=
  {| pid := pid dump; rip := rip dump; segment_count := n; segments := segments dump |}.

Section Dumper.

(** The global [process_vmi_windows_rekall], filled in from the profile at
    start-up. *)
Variable process_vmi_windows_rekall : rekall_t.

(** The macro of dump.h that sizes the segments array. *)
Variable SEG_COUNT_MAX : nat.

(** Whether the allocator serves a request of [n] bytes.  Only
    process_layer tests what [malloc] returns; handle_node and
    vad_dump_process use their pointers untested, and the model follows the
    runs in which those allocations succeed. *)
Variable malloc_ok : Z -> bool.

(** What a freshly allocated [vad_seg_t] happens to contain. *)
Variable fresh_vad_seg : vad_seg_t.

(** [process_layer], the single-segment dump (the same text in the dumper
    and in output.c).  [dump_size] is not initialised; the model takes
    [vmi_read_va] to store the count of bytes it copied in every case. *)
Definition process_layer (vmi : vmi_instance_t) (event : vmi_event_t) (pid_ : Z)
  (page_cat : Z) (h : host_t) : host_t :=
  let vma := vmi_current_find_segment vmi event (mem_event_gla event) in
  if MemSeg.size vma =? 0 then
    fprintf_stderr
      "WARNING: Unpack - Could not find memory segment for virtual address 0x%lx"
      [mem_event_gla event] h
  else
  if negb (malloc_ok (MemSeg.size vma)) then
    fprintf_stderr "ERROR: Unpack - Failed to malloc buffer to dump W2X event" [] h
  else
  let buffer := malloc (MemSeg.size vma) in
  let '(_, buffer, dump_size) :=
    vmi_read_va vmi (MemSeg.base_va vma) pid_ (MemSeg.size vma) buffer in
  let h := printf "Dumping section: base_va: %p, size: %zu"
             [MemSeg.base_va vma; MemSeg.size vma] h in
  let h := add_to_dump_queue buffer dump_size pid_ (x86_regs_rip event)
             (MemSeg.base_va vma) h in
  printf "Done queueing dump: base_va: %p, size: %zu"
    [MemSeg.base_va vma; MemSeg.size vma] h.

(** [get_node_vadtype]: the value stored in [*vadtype], an enum of
    [unsigned int] size. *)
Definition get_node_vadtype (vmi : vmi_instance_t) (node : Z) : Z :=
  let flags := 0 in
  let start := flags_vadtype_start process_vmi_windows_rekall in
  let end_ := flags_vadtype_end process_vmi_windows_rekall in
  let '(_, flags) :=
    vmi_read_64_va vmi (U64.add node (mmvad_flags process_vmi_windows_rekall)) 0 flags in
  extract_field_value flags start end_ mod 2 ^ 32.

(** [get_node_isprivate]: the value stored in [*isprivate], a [uint8_t]. *)
Definition get_node_isprivate (vmi : vmi_instance_t) (node : Z) : Z :=
  let flags := 0 in
  let start := flags_isprivate_start process_vmi_windows_rekall in
  let end_ := flags_isprivate_end process_vmi_windows_rekall in
  let '(_, flags) :=
    vmi_read_64_va vmi (U64.add node (mmvad_flags process_vmi_windows_rekall)) 0 flags in
  extract_field_value flags start end_ mod 2 ^ 8.

(** [get_node_protection]: the value stored in [*protection], a [uint8_t]. *)
Definition get_node_protection (vmi : vmi_instance_t) (node : Z) : Z :=
  let flags := 0 in
  let start := flags_protection_start process_vmi_windows_rekall in
  let end_ := flags_protection_end process_vmi_windows_rekall in
  let '(_, flags) :=
    vmi_read_64_va vmi (U64.add node (mmvad_flags process_vmi_windows_rekall)) 0 flags in
  extract_field_value flags start end_ mod 2 ^ 8.

(** [get_node_filename]: the content of [*fn_utf8] after the call. *)
Definition get_node_filename (vmi : vmi_instance_t) (node : Z) (fn_utf8 : unicode_string_t)
  : unicode_string_t :=
  let control_area := 0 in
  let file_object := 0 in
  let filename_ptr := 0 in
  let '(_, control_area) :=
    vmi_read_addr_va vmi
      (U64.add node (mmvad_controlarea process_vmi_windows_rekall)) 0 control_area in
  if control_area =? 0 then fn_utf8 else
  let '(_, file_object) :=
    vmi_read_addr_va vmi
      (U64.add control_area (controlarea_fileobject process_vmi_windows_rekall))
      0 file_object in
  if file_object =? 0 then fn_utf8 else
  let file_object := Z.land file_object 0xFFFFFFFFFFFFFFF8 in
  let '(_, filename_ptr) :=
    vmi_read_addr_va vmi
      (U64.add file_object (fileobject_filename process_vmi_windows_rekall))
      0 filename_ptr in
  if filename_ptr =? 0 then fn_utf8 else
  match vmi_read_unicode_str_va vmi filename_ptr 0 with
  | None => fn_utf8
  | Some fn_ustr => snd (vmi_convert_str_encoding vmi fn_ustr "UTF-8")
  end.

(** [handle_node], the visitor that turns one VAD node into one segment of
    the job behind [data].  The C code puts the pointer to the new struct
    into slot [segment_count] first and fills the struct through the slot;
    here the struct is filled in [seg], assignment by assignment, and
    stored in the slot once. *)
Definition handle_node : traverse_func dump_layer_t := fun vmi node dump h =>
  if (SEG_COUNT_MAX <=? segment_count dump)%nat then
    Done (dump, fprintf_stderr "handle_node: skipping VAD, SEG_COUNT_MAX reached." [] h)
  else
  let start := 0 in
  let end_ := 0 in
  let '(st, start) :=
    vmi_read_addr_va vmi
      (U64.add node (mmvad_startingvpn process_vmi_windows_rekall)) 0 start in
  if negb (status_eqb st VMI_SUCCESS) then Done (dump, h) else
  let start := U64.shl start 12 in
  let '(st, end_) :=
    vmi_read_addr_va vmi
      (U64.add node (mmvad_endingvpn process_vmi_windows_rekall)) 0 end_ in
  if negb (status_eqb st VMI_SUCCESS) then Done (dump, h) else
  let end_ := U64.shl end_ 12 in
  if (start =? 0) || (end_ =? 0) then Done (dump, h) else
  let base_va_ := start in
  let size_ := U64.sub end_ start in
  let i := segment_count dump in
  let seg := fresh_vad_seg in
  let seg := set_base_va base_va_ seg in
  let seg := set_size size_ seg in
  let seg := set_va_size size_ seg in
  let seg := set_buf (malloc size_) seg in
  let '(_, b, read_size) := vmi_read_va vmi base_va_ (pid dump) size_ (buf seg) in
  let seg := set_buf b seg in
  let seg :=
    if read_size <? size_
    then set_size read_size (set_buf (realloc (buf seg) read_size) seg)
    else seg in
  let seg := set_filename unicode_string_zero seg in
  let seg := set_filename (get_node_filename vmi node (filename seg)) seg in
  let seg := set_vadtype (get_node_vadtype vmi node) seg in
  let seg := set_isprivate (get_node_isprivate vmi node) seg in
  let seg := set_protection (get_node_protection vmi node) seg in
  dump ← store_segment dump i seg;
  Done (set_segment_count (segment_count dump + 1) dump, h).

(** [vad_iterator]: the recursive in-order walk.  The guest decides how
    deep the recursion goes, so the model is given [fuel] for the nesting
    of calls and reports [OutOfFuel] when it is used up. *)
Fixpoint vad_iterator {A : Type} (fuel : nat) (vmi : vmi_instance_t) (node : Z)
  (func : traverse_func A) (data : A) (h : host_t) : outcome (A * host_t) :=
  match fuel with
  | O => Fault OutOfFuel
  | S fuel =>
    let left_ := 0 in
    let right_ := 0 in
    let '(st, left_) :=
      vmi_read_addr_va vmi
        (U64.add node (mmvad_leftchild process_vmi_windows_rekall)) 0 left_ in
    let h :=
      if negb (status_eqb st VMI_SUCCESS)
      then fprintf_stderr "vad_iterator: Left node could not be read" [] h
      else h in
    '(data, h) ←
      (if left_ =? 0 then Done (data, h) else vad_iterator fuel vmi left_ func data h);
    '(data, h) ← func vmi node data h;
    let '(st, right_) :=
      vmi_read_addr_va vmi
        (U64.add node (mmvad_rightchild process_vmi_windows_rekall)) 0 right_ in
    let h :=
      if negb (status_eqb st VMI_SUCCESS)
      then fprintf_stderr "vad_iterator: Right node could not be read" [] h
      else h in
    if right_ =? 0 then Done (data, h) else vad_iterator fuel vmi right_ func data h
  end.

(** [vad_dump_process]: build an empty job, walk the VAD tree into it, and
    queue it. *)
Definition vad_dump_process (fuel : nat) (vmi : vmi_instance_t) (event : vmi_event_t)
  (pid_ : Z) (page_cat : Z) (h : host_t) : outcome host_t :=
  let eprocess := windows_find_eprocess_pgd vmi (x86_regs_cr3 event) in
  let vadroot := vmi_get_eprocess_vadroot vmi eprocess in
  let dump :=
    {| pid := pid_; rip := x86_regs_rip event; segment_count := 0;
       segments := replicate SEG_COUNT_MAX None |} in
  '(dump, h) ← vad_iterator fuel vmi vadroot handle_node dump h;
  Done (queue_vads_to_dump dump h).

End Dumper.

(** ** The output module: numbered artefacts *)

Module Output.

(** The names the module builds with snprintf, one constructor per format
    string; the integer printed with [%04d] is the sequence number. *)
Inductive path :=
| LayerDir (output_dir : string) (dump_count : Z)
    (* "%s/%04d" *)
| VaddumpOutput (output_dir : string) (dump_count pid : Z)
    (* "%s/vaddump_output.%04d.%ld" *)
| VadinfoJson (output_dir : string) (dump_count pid : Z)
    (* "%s/vadinfo.%04d.%ld.json" *)
| VadinfoOutput (output_dir : string) (dump_count pid : Z).
    (* "%s/vadinfo_output.%04d.%ld" *)

(** The two volatility command lines; each names one path. *)
Inductive command :=
| VaddumpCmd (cmd_prefix domain_name vol_profile : string) (dir : path) (pid : Z)
| VadinfoCmd (cmd_prefix domain_name vol_profile : string) (file : path) (pid : Z).

(** What a callback does to the world outside the process. *)
Inductive effect :=
| Mkdir (dir : path)
| QueueShellCmd (cmd : command) (capture : path)
| SetJsonRip (file : path) (rip : Z).

Definition path_seq (p : path) : Z :=
  match p with
  | LayerDir _ n | VaddumpOutput _ n _ | VadinfoJson _ n _ | VadinfoOutput _ n _ => n
  end.

Definition command_path (c : command) : path :=
  match c with
  | VaddumpCmd _ _ _ p _ | VadinfoCmd _ _ _ p _ => p
  end.

(** The sequence numbers that occur in the names of one effect. *)
Definition effect_seqs (e : effect) : list Z :=
  match e with
  | Mkdir p => [path_seq p]
  | QueueShellCmd c p => [path_seq (command_path c); path_seq p]
  | SetJsonRip p _ => [path_seq p]
  end.

(** The global [dump_count] and the effects issued so far. *)
Record state := State { dump_count : Z; effects : list effect }.

(** [int dump_count = 0;] *)
Definition initial : state := {| dump_count := 0; effects := [] |}.

Section Globals.

(** The globals of main.c. *)
Variables domain_name vol_profile output_dir : string.

Definition volatility_vaddump (pid : Z) (cmd_prefix : string) (dump_count : Z)
  (fx : list effect) : list effect :=
  let filepath := LayerDir output_dir dump_count in
  let fx := fx ++ [Mkdir filepath] in
  let cmd := VaddumpCmd cmd_prefix domain_name vol_profile filepath pid in
  let filepath := VaddumpOutput output_dir dump_count pid in
  fx ++ [QueueShellCmd cmd filepath].

Definition volatility_vadinfo (pid : Z) (cmd_prefix : string) (dump_count : Z)
  (fx : list effect) : list effect :=
  let filepath := VadinfoJson output_dir dump_count pid in
  let cmd := VadinfoCmd cmd_prefix domain_name vol_profile filepath pid in
  let filepath := VadinfoOutput output_dir dump_count pid in
  fx ++ [QueueShellCmd cmd filepath].

(** [add_rip_to_json] rewrites the vadinfo file with a "rip" member; its
    return code is dropped by the caller. *)
Definition add_rip_to_json (pid : Z) (dump_count : Z) (rip : Z) (fx : list effect)
  : list effect :=
  let filepath := VadinfoJson output_dir dump_count pid in
  fx ++ [SetJsonRip filepath rip].

Definition volatility_callback_vaddump (vmi : vmi_instance_t) (event : vmi_event_t)
  (pid : Z) (page_cat : Z) (st : state) : state :=
  let cmd_prefix := ""%string in
  let fx := volatility_vaddump pid cmd_prefix (dump_count st) (effects st) in
  let fx := volatility_vadinfo pid cmd_prefix (dump_count st) fx in
  let fx := add_rip_to_json pid (dump_count st) (x86_regs_rip event) fx in
  {| dump_count := I32.wrap (dump_count st + 1); effects := fx |}.

(** One W->X trigger: the arguments the monitor passes to the callback. *)
Record trigger := Trigger {
  trigger_vmi : vmi_instance_t;
  trigger_event : vmi_event_t;
  trigger_pid : Z;
  trigger_page_cat : Z;
}.

Definition fire (st : state) (t : trigger) : state :=
  volatility_callback_vaddump (trigger_vmi t) (trigger_event t) (trigger_pid t)
    (trigger_page_cat t) st.

(** A run: the callback fired once per trigger, in order. *)
Definition run (ts : list trigger) (st : state) : state := fold_left fire ts st.

End Globals.

End Output.

(** ** VAD trees in guest memory *)

(** The shape of the structure the walk follows, with the address of each
    node. *)
Inductive vad_tree :=
| VadNil
| VadNode (l : vad_tree) (node : Z) (r : vad_tree).

Fixpoint inorder (t : vad_tree) : list Z :=
  match t with
  | VadNil => []
  | VadNode l n r => inorder l ++ n :: inorder r
  end.

Fixpoint height (t : vad_tree) : nat :=
  match t with
  | VadNil => O
  | VadNode l _ r => S (Nat.max (height l) (height r))
  end.

(** Strict search-tree order for a key on node addresses. *)
Fixpoint is_bst (key : Z -> Z) (t : vad_tree) : bool :=
  match t with
  | VadNil => true
  | VadNode l n r =>
    forallb (fun m => key m <? key n) (inorder l)
    && forallb (fun m => key n <? key m) (inorder r)
    && is_bst key l && is_bst key r
  end.

Section Guest.

Variable process_vmi_windows_rekall : rekall_t.
Variable vmi : vmi_instance_t.

(** What an [addr_t] local that starts as 0 holds after
    [vmi_read_addr_va] is pointed at it for the field at offset [off] of
    the structure at [node]: the value read, or still 0. *)
Definition pointer_field (off node : Z) : Z :=
  snd (vmi_read_addr_va vmi (U64.add node off) 0 0).

Definition left_child : Z -> Z := pointer_field (mmvad_leftchild process_vmi_windows_rekall).
Definition right_child : Z -> Z := pointer_field (mmvad_rightchild process_vmi_windows_rekall).

(** [t] is what hangs below a child pointer [ptr]: nothing under a null
    (or unreadable) pointer, otherwise the node it points to with its two
    subtrees. *)
Fixpoint subtree_at (t : vad_tree) (ptr : Z) : bool :=
  match t with
  | VadNil => ptr =? 0
  | VadNode l n r =>
    (ptr =? n) && negb (n =? 0)
    && subtree_at l (left_child n) && subtree_at r (right_child n)
  end.

(** [t] is the VAD tree rooted at [root]; vad_iterator does not test the
    root pointer. *)
Definition vad_tree_at (t : vad_tree) (root : Z) : bool :=
  match t with
  | VadNil => false
  | VadNode l n r =>
    (root =? n) && subtree_at l (left_child n) && subtree_at r (right_child n)
  end.

(** The virtual address a node describes: its starting page number, as
    handle_node reads and shifts it. *)
Definition vad_base (node : Z) : Z :=
  U64.shl
    (snd (vmi_read_addr_va vmi
            (U64.add node (mmvad_startingvpn process_vmi_windows_rekall)) 0 0))
    12.

(** The virtual address just past the node, likewise. *)
Definition vad_end (node : Z) : Z :=
  U64.shl
    (snd (vmi_read_addr_va vmi
            (U64.add node (mmvad_endingvpn process_vmi_windows_rekall)) 0 0))
    12.

(** Whether both page numbers of the node can be read. *)
Definition vpn_readable (node : Z) : bool :=
  match read_addr_va vmi (U64.add node (mmvad_startingvpn process_vmi_windows_rekall)) 0,
        read_addr_va vmi (U64.add node (mmvad_endingvpn process_vmi_windows_rekall)) 0 with
  | Some _, Some _ => true
  | _, _ => false
  end.

(** The nodes handle_node passes over: a page number that cannot be read,
    or a base or end address of zero. *)
Definition node_skipped (node : Z) : bool :=
  negb (vpn_readable node) || (vad_base node =? 0) || (vad_end node =? 0).

(** The virtual extent [end - base] of the node, in [addr_t] arithmetic. *)
Definition vad_extent (node : Z) : Z := U64.sub (vad_end node) (vad_base node).

(** The bytes the bulk read of the node's range copies for process
    [pid_]. *)
Definition node_bytes (pid_ node : Z) : list byte :=
  snd (read_va vmi (vad_base node) pid_ (vad_extent node)).

(** The segment handle_node stores for a node it does not skip, field by
    field. *)
Definition node_segment (pid_ node : Z) : vad_seg_t :=
  let read_size := Z.of_nat (length (node_bytes pid_ node)) in
  let kept := if read_size <? vad_extent node then read_size else vad_extent node in
  {| base_va := vad_base node;
     size := kept;
     va_size := vad_extent node;
     buf := {| capacity := kept; bytes := node_bytes pid_ node |};
     filename := get_node_filename process_vmi_windows_rekall vmi node unicode_string_zero;
     vadtype := get_node_vadtype process_vmi_windows_rekall vmi node;
     isprivate := get_node_isprivate process_vmi_windows_rekall vmi node;
     protection := get_node_protection process_vmi_windows_rekall vmi node |}.

(** The line vad_iterator prints when the child pointer at [off] cannot be
    read. *)
Definition report_child (off node : Z) (msg : string) (h : host_t) : host_t :=
  match read_addr_va vmi (U64.add node off) 0 with
  | Some _ => h
  | None => fprintf_stderr msg [] h
  end.

(** The walk laid out along the tree: left subtree, node, right subtree,
    with the diagnostics where vad_iterator prints them. *)
Fixpoint walk {A : Type} (func : traverse_func A) (t : vad_tree) (data : A) (h : host_t)
  : outcome (A * host_t) :=
  match t with
  | VadNil => Done (data, h)
  | VadNode l n r =>
    let h := report_child (mmvad_leftchild process_vmi_windows_rekall) n
               "vad_iterator: Left node could not be read" h in
    '(data, h) ← walk func l data h;
    '(data, h) ← func vmi n data h;
    let h := report_child (mmvad_rightchild process_vmi_windows_rekall) n
               "vad_iterator: Right node could not be read" h in
    walk func r data h
  end.

(** The visitor called on a list of nodes, one after the other. *)
Fixpoint visit_all {A : Type} (func : traverse_func A) (nodes : list Z) (data : A)
  (h : host_t) : outcome (A * host_t) :=
  match nodes with
  | [] => Done (data, h)
  | n :: nodes => '(data, h) ← func vmi n data h; visit_all func nodes data h
  end.

End Guest.

(** The segments of a job: the slots below [segment_count]. *)
Definition job_segments (dump : dump_layer_t) : list vad_seg_t :=
  omap id (take (segment_count dump) (segments dump)).

(** A visitor that only notes the node it is shown. *)
Definition note_node : traverse_func (list Z) := fun _ node seen h =>
  Done (seen ++ [node], h).

(** ** A sample guest *)

Module Sample.

(** Offsets and bit ranges in the style of a 64-bit Windows 7 profile. *)
Definition profile : rekall_t :=
  {| mmvad_leftchild := 0x8; mmvad_rightchild := 0x10;
     mmvad_startingvpn := 0x18; mmvad_endingvpn := 0x20;
     mmvad_flags := 0x28; mmvad_controlarea := 0x48;
     controlarea_fileobject := 0x40; fileobject_filename := 0x58;
     flags_vadtype_start := 52; flags_vadtype_end := 54;
     flags_isprivate_start := 63; flags_isprivate_end := 63;
     flags_protection_start := 56; flags_protection_end := 60 |}.

(** Kernel memory, word by word.  Three VAD nodes: the root at 0x1000 with
    children at 0x2000 and 0x3000.  The right-child field of the node at
    0x2000 (address 0x2010) and the left-child field of the node at 0x3000
    (address 0x3008) are not mapped.  The root has a control area at
    0x5000 whose file object reference carries a tag in its low bits. *)
Definition words : list (Z * Z) :=
  [ (0x1008, 0x2000); (0x1010, 0x3000); (0x1018, 0x20); (0x1020, 0x22);
    (0x1028, 0x8610000000000000); (0x1048, 0x5000);
    (0x2008, 0); (0x2018, 0x10); (0x2020, 0x11);
    (0x2028, 0x0400000000000000); (0x2048, 0);
    (0x3010, 0); (0x3018, 0x30); (0x3020, 0x32);
    (0x3028, 0x0400000000000000); (0x3048, 0);
    (0x5040, 0x6005); (0x6058, 0x7000) ].

Fixpoint find_word (a : Z) (m : list (Z * Z)) : option Z :=
  match m with
  | [] => None
  | (k, v) :: m => if a =? k then Some v else find_word a m
  end.

Definition image_name : unicode_string_t :=
  {| ustr_length := 2; contents := Some [x61; x00]; encoding := Some "UTF-16"%string |}.

Definition image_name_utf8 : unicode_string_t :=
  {| ustr_length := 1; contents := Some [x61]; encoding := Some "UTF-8"%string |}.

(** The bytes of the region at 0x20000 stop after three; every other
    region reads in full. *)
Definition guest : vmi_instance_t :=
  {| read_addr_va := fun a _ => find_word a words;
     read_64_va := fun a _ => find_word a words;
     read_va := fun a _ n =>
       if a =? 0x20000 then (VMI_FAILURE, [x90; x90; xc3])
       else (VMI_SUCCESS, replicate (Z.to_nat n) x00);
     read_unicode_str_va := fun a _ => if a =? 0x7000 then Some image_name else None;
     convert_str_encoding := fun _ _ => (VMI_SUCCESS, image_name_utf8);
     vmi_current_find_segment := fun _ a =>
       if a =? 0x20123 then MemSeg.Make 0x20000 0x2000 else MemSeg.Make 0 0;
     windows_find_eprocess_pgd := fun _ => 0x800;
     vmi_get_eprocess_vadroot := fun _ => 0x1000 |}.

Definition tree : vad_tree :=
  VadNode (VadNode VadNil 0x2000 VadNil) 0x1000 (VadNode VadNil 0x3000 VadNil).

Definition junk : vad_seg_t :=
  VadSeg 7 7 7 (Buffer 7 []) unicode_string_zero 7 7 7.

Definition empty_job (max : nat) : dump_layer_t :=
  {| pid := 1234; rip := 0x20123; segment_count := 0; segments := replicate max None |}.

Definition quiet : host_t :=
  {| stderr := []; stdout := []; dump_queue := []; vad_queue := [] |}.

Definition event : vmi_event_t :=
  {| mem_event_gla := 0x20123; x86_regs_rip := 0x20123; x86_regs_cr3 := 0x187000 |}.

(** The empty job of four slots after handle_node has seen the root. *)
Definition root_job : dump_layer_t :=
  {| pid := 1234; rip := 0x20123; segment_count := 1;
     segments := [Some (node_segment profile guest 1234 0x1000); None; None; None] |}.

Definition trigger : Output.trigger := Output.Trigger guest event 1234 0.

End Sample.

(** ** Vocabulary for further properties of the dumper *)

(** Bits [s..e] of a word, as a number. *)
Definition bit_slice (word s e : Z) : Z := (word / 2 ^ s) mod 2 ^ (e - s + 1).

(** A bit range [s..e] that lies in the 64-bit word and is at most [w]
    bits wide. *)
Definition field_fits (s e w : Z) : Prop := 0 <= s <= e /\ e <= 63 /\ e - s + 1 <= w.

(** [h'] differs from [h] by lines added to stderr at most. *)
Definition stderr_grows (h h' : host_t) : Prop :=
  stdout h' = stdout h /\ dump_queue h' = dump_queue h /\ vad_queue h' = vad_queue h
  /\ exists lines, stderr h' = stderr h ++ lines.

Section GuestFields.

Variable process_vmi_windows_rekall : rekall_t.
Variable vmi : vmi_instance_t.

(** The starting page number of a node, as handle_node reads it. *)
Definition start_vpn (node : Z) : Z :=
  pointer_field vmi (mmvad_startingvpn process_vmi_windows_rekall) node.

(** The flags word of a node, as the three get_node_ functions read it
    into their local [flags], which starts as 0. *)
Definition flags_word (node : Z) : Z :=
  snd (vmi_read_64_va vmi (U64.add node (mmvad_flags process_vmi_windows_rekall)) 0 0).

(** The nodes of a list that handle_node does not pass over. *)
Definition kept_nodes (nodes : list Z) : list Z :=
  List.filter (fun n => negb (node_skipped process_vmi_windows_rekall vmi n)) nodes.

End GuestFields.

(** ** output.c: files and pipes *)

Module Files.

(** [EOF] of stdio. *)
Definition EOF : Z := -1.

(** An [int] stored in a [char], which is signed on x86-64. *)
Definition char_of_int (v : Z) : Z :=
  let u := v mod 256 in if u <? 128 then u else u - 256.

(** A line on stderr: the format (without its final newline) and the
    strings put into it. *)
Record line := Line { line_format : string; line_args : list string }.

(** The calls into the C library that take or give back a resource or
    move data, in the order they are made. *)
Inductive call :=
| Popen (cmd : string) (ok : bool)
| Pclose
| Fopen (fn : string) (ok : bool)
| Fclose
| Malloc (n : Z) (ok : bool)
| Free
| Fread (delivered : nat)
| Fwrite (asked written : nat)
| Fgetc (v : Z).

(** A pipe opened for reading, by what it answers: the blocks successive
    [fread] calls deliver (after the last one, or at an empty one, fread
    returns 0), and the values successive [fgetc] calls return (after the
    last one, [EOF]). *)
Record stream_t := Stream {
  fread_blocks : list (list byte);
  fgetc_values : list Z;
}.

(** The answers of the C library: whether [popen] and [fopen] succeed,
    whether [malloc] serves a request, how many items [fwrite] writes of a
    block given what the file holds so far, and whether [ferror] reports
    an error after a write. *)
Record libc_t := Libc {
  popen : string -> option stream_t;
  fopen : string -> bool;
  malloc_ok : Z -> bool;
  fwrite : list byte -> list byte -> nat;
  ferror : bool;
}.

(** What a call leaves behind: the value returned, the calls made, the
    lines printed on stderr, and the bytes that reached the file. *)
Record run_t := Run {
  rc : Z;
  calls : list call;
  errs : list line;
  file : list byte;
}.

(** The [while (1)] loop of capture_cmd: read a block, stop at the first
    empty read, write the block, warn when fewer items were written. *)
Fixpoint copy_loop (L : libc_t) (fn : string) (blocks : list (list byte))
  (file_ : list byte) : list byte * list line * list call :=
  match blocks with
  | [] => (file_, [], [Fread 0])
  | block :: blocks =>
    let out_size := length block in
    if (out_size =? 0)%nat then (file_, [], [Fread 0]) else
    let written := fwrite L file_ block in
    let file_ := file_ ++ take written block in
    let warning :=
      if (written =? out_size)%nat then []
      else [Line "%s: warning: short write to {%s}" ["capture_cmd"; fn]%string] in
    let '(file_, errs_, calls_) := copy_loop L fn blocks file_ in
    (file_, warning ++ errs_, Fread out_size :: Fwrite out_size written :: calls_)
  end.

(** The loop [while ((ch = fgetc(pipe)) != EOF) {}] with [char ch]: the
    value read is narrowed to [char] before it is compared. *)
Fixpoint discard_loop (values : list Z) : list call :=
  match values with
  | [] => [Fgetc EOF]
  | v :: values =>
    let ch := char_of_int v in
    if ch =? EOF then [Fgetc v] else Fgetc v :: discard_loop values
  end.

(** [capture_cmd(cmd, fn)]; [fn] may be null.  [PAGE_SIZE] is what
    [sysconf(_SC_PAGESIZE)] returns. *)
Definition capture_cmd (L : libc_t) (PAGE_SIZE : Z) (cmd : string) (fn : option string)
  : run_t :=
  match popen L cmd with
  | None =>
    {| rc := -1; calls := [Popen cmd false];
       errs := [Line "%s: failed to run cmd {%s}" ["capture_cmd"; cmd]%string];
       file := [] |}
  | Some pipe =>
    match fn with
    | Some fn =>
      if negb (fopen L fn) then
        {| rc := -1; calls := [Popen cmd true; Fopen fn false; Pclose];
           errs := [Line "%s: error: failed to open {%s} for writing"
                      ["capture_cmd"; fn]%string];
           file := [] |}
      else
      if negb (malloc_ok L PAGE_SIZE) then
        {| rc := -1;
           calls := [Popen cmd true; Fopen fn true; Malloc PAGE_SIZE false; Fclose; Pclose];
           errs := [Line "%s: error: failed to allocate buffer" ["capture_cmd"]%string];
           file := [] |}
      else
      let '(file_, errs_, calls_) := copy_loop L fn (fread_blocks pipe) [] in
      {| rc := 0;
         calls := [Popen cmd true; Fopen fn true; Malloc PAGE_SIZE true]
                  ++ calls_ ++ [Free; Fclose; Pclose];
         errs := errs_;
         file := file_ |}
    | None =>
      {| rc := 0;
         calls := Popen cmd true :: discard_loop (fgetc_values pipe) ++ [Pclose];
         errs := [];
         file := [] |}
    end
  end.

(** [write_file(fn, data, len)].  [written] is a [size_t]; the two
    assignments from it to the [int rc] narrow it to 32 bits. *)
Definition write_file (L : libc_t) (fn : string) (data : list byte) (len : Z) : run_t :=
  let rc_ := -9 in
  if negb (fopen L fn) then
    let rc_ := -1 in
    {| rc := rc_; calls := [Fopen fn false];
       errs := [Line "perror" ["write_file"]%string]; file := [] |}
  else
  let block := take (Z.to_nat len) data in
  let written := fwrite L [] block in
  if negb (Z.of_nat written =? len) then
    if negb (ferror L) then
      let rc_ := I32.wrap (U64.sub 0 (U64.add (Z.of_nat written) 10)) in
      {| rc := rc_; calls := [Fopen fn true; Fwrite (length block) written; Fclose];
         errs := [Line "%s: warning: short write to {%s}" ["write_file"; fn]%string];
         file := take written block |}
    else
      let rc_ := -2 in
      {| rc := rc_; calls := [Fopen fn true; Fwrite (length block) written; Fclose];
         errs := [Line "%s: %s" ["write_file"; "strerror(errno)"]%string];
         file := take written block |}
  else
  let rc_ := I32.wrap (Z.of_nat written) in
  {| rc := rc_; calls := [Fopen fn true; Fwrite (length block) written; Fclose];
     errs := []; file := take written block |}.

(** Pipes, files and heap blocks a trace of calls leaves open. *)
Fixpoint open_pipes (cs : list call) : Z :=
  match cs with
  | [] => 0
  | Popen _ true :: cs => open_pipes cs + 1
  | Pclose :: cs => open_pipes cs - 1
  | _ :: cs => open_pipes cs
  end.

Fixpoint open_files (cs : list call) : Z :=
  match cs with
  | [] => 0
  | Fopen _ true :: cs => open_files cs + 1
  | Fclose :: cs => open_files cs - 1
  | _ :: cs => open_files cs
  end.

Fixpoint live_blocks (cs : list call) : Z :=
  match cs with
  | [] => 0
  | Malloc _ true :: cs => live_blocks cs + 1
  | Free :: cs => live_blocks cs - 1
  | _ :: cs => live_blocks cs
  end.

(** What the pipe delivered to the copy loop before the first empty
    read. *)
Fixpoint delivered (blocks : list (list byte)) : list byte :=
  match blocks with
  | [] => []
  | block :: blocks =>
    if (length block =? 0)%nat then [] else block ++ delivered blocks
  end.

(** The number of [fgetc] calls the discard loop makes on a pipe: up to
    and including the first value that is [EOF] or the byte 0xFF. *)
Fixpoint reads_until_stop (values : list Z) : nat :=
  match values with
  | [] => 1
  | v :: values =>
    if (v mod 256 =? 255) then 1%nat else S (reads_until_stop values)
  end.

(** A pipe and a C library for examples: the command prints "ab", then a
    byte 0xFF, then "c". *)
Definition sample_stream : stream_t :=
  {| fread_blocks := [[x61; x62; xff]; [x63]];
     fgetc_values := [0x61; 0x62; 0xff; 0x63] |}.

Definition sample_libc : libc_t :=
  {| popen := fun _ => Some sample_stream;
     fopen := fun _ => true;
     malloc_ok := fun _ => true;
     fwrite := fun _ block => length block;
     ferror := false |}.

(** The same library with a full disk: every write stops after one item. *)
Definition short_libc : libc_t :=
  {| popen := fun _ => Some sample_stream;
     fopen := fun _ => true;
     malloc_ok := fun _ => true;
     fwrite := fun _ _ => 1%nat;
     ferror := false |}.

End Files.

(** ** Vocabulary for the names of the output module *)

Module OutputNames.

(** The paths an effect names. *)
Definition effect_paths (e : Output.effect) : list Output.path :=
  match e with
  | Output.Mkdir p => [p]
  | Output.QueueShellCmd c p => [Output.command_path c; p]
  | Output.SetJsonRip p _ => [p]
  end.

(** The effects one firing of the callback adds to those of the state it
    starts from. *)
Definition batch (domain_name vol_profile output_dir : string) (st : Output.state)
  (t : Output.trigger) : list Output.effect :=
  drop (length (Output.effects st))
    (Output.effects (Output.fire domain_name vol_profile output_dir st t)).

End OutputNames.

(** A guest in which every pointer field reads as 0x1000: the node at
    0x1000 is its own left and right child. *)
Module SampleLoop.

Definition guest : vmi_instance_t :=
  {| read_addr_va := fun _ _ => Some 0x1000;
     read_64_va := fun _ _ => None;
     read_va := fun _ _ _ => (VMI_FAILURE, []);
     read_unicode_str_va := fun _ _ => None;
     convert_str_encoding := fun _ _ => (VMI_FAILURE, unicode_string_zero);
     vmi_current_find_segment := fun _ _ => MemSeg.Make 0 0;
     windows_find_eprocess_pgd := fun _ => 0x800;
     vmi_get_eprocess_vadroot := fun _ => 0x1000 |}.

End SampleLoop.

(** * Part II: properties *)

(** ** Machine integers *)

Lemma u64_wrap_range x : 0 <= U64.wrap x < 2 ^ 64.
Proof. apply Z.mod_pos_bound. reflexivity. Qed.

Lemma u64_wrap_small x : 0 <= x < 2 ^ 64 -> U64.wrap x = x.
Proof. apply Z.mod_small. Qed.

Lemma u64_shl_small x n :
  0 <= n < 64 -> 0 <= x -> x * 2 ^ n < 2 ^ 64 -> U64.shl x n = x * 2 ^ n.
Proof.
  intros Hn Hx Hlt. unfold U64.shl, U64.width.
  rewrite (Z.mod_small n 64) by lia.
  rewrite Z.shiftl_mul_pow2 by lia.
  apply u64_wrap_small. split; [|assumption].
  apply Z.mul_nonneg_nonneg; [assumption|]. apply Z.pow_nonneg. lia.
Qed.

(** Page numbers of canonical addresses keep their order when shifted to
    addresses. *)
Lemma u64_shl_12_lt a b : 0 <= a < b -> b < 2 ^ 52 -> U64.shl a 12 < U64.shl b 12.
Proof.
  intros Hab Hb.
  assert (Hfit : b * 2 ^ 12 < 2 ^ 64)
    by (change (2 ^ 64) with (2 ^ 52 * 2 ^ 12); apply Z.mul_lt_mono_pos_r; [reflexivity|lia]).
  rewrite !u64_shl_small by lia. lia.
Qed.

Lemma u64_shr_small x n : 0 <= n < 64 -> U64.shr x n = x / 2 ^ n.
Proof.
  intros Hn. unfold U64.shr, U64.width.
  rewrite (Z.mod_small n 64) by lia. apply Z.shiftr_div_pow2. lia.
Qed.

Lemma u64_to_signed_small x : 0 <= x < 2 ^ 63 -> U64.to_signed x = x.
Proof.
  intros Hx. unfold U64.to_signed.
  rewrite u64_wrap_small by (split; [lia|]; apply Z.lt_trans with (2 ^ 63); [lia|reflexivity]).
  destruct (Z.ltb_spec x (2 ^ 63)); [reflexivity|lia].
Qed.

(** ** Bit fields *)

Example extract_field_value_bits_4_6 : extract_field_value 0x1234 4 6 = 3.
Proof. reflexivity. Qed.

Example extract_field_value_sample_protection :
  extract_field_value 0x8610000000000000 56 60 = 6.
Proof. reflexivity. Qed.

(** The mask of a field of [k] bits, for [k] below the word size. *)
Lemma field_mask_ones k :
  0 < k <= 63 ->
  U64.wrap (U64.to_signed (U64.sub (U64.shl 1 k) 1)) = Z.ones k.
Proof.
  intros Hk.
  assert (Hpow : 2 ^ k <= 2 ^ 63) by (apply Z.pow_le_mono_r; lia).
  assert (Hpos : 0 < 2 ^ k) by (apply Z.pow_pos_nonneg; lia).
  assert (H63 : 2 ^ 63 < 2 ^ 64) by reflexivity.
  rewrite u64_shl_small by lia.
  unfold U64.sub. rewrite Z.mul_1_l.
  rewrite (u64_wrap_small (2 ^ k - 1)) by lia.
  rewrite u64_to_signed_small by lia.
  rewrite u64_wrap_small by lia.
  rewrite Z.ones_equiv. lia.
Qed.

(** C3 (as amended): for a field [s..e] that lies inside the 64-bit word
    ([s <= e <= 63]) and is narrower than the word ([e - s + 1 <= 63]),
    and every value [v < 2^(e-s+1)], extract_field_value applied to the
    word [v << s] with bounds [s] and [e] returns [v]. *)
Theorem extract_field_value_roundtrip (s e v : Z) :
  0 <= s <= e -> e <= 63 -> e - s + 1 <= 63 ->
  0 <= v < 2 ^ (e - s + 1) ->
  extract_field_value (U64.shl v s) s e = v.
Proof.
  intros Hse He Hw Hv. unfold extract_field_value.
  assert (Hps : 0 < 2 ^ s) by (apply Z.pow_pos_nonneg; lia).
  assert (Hfit : v * 2 ^ s < 2 ^ 64).
  { apply Z.lt_le_trans with (2 ^ (e - s + 1) * 2 ^ s).
    - apply Z.mul_lt_mono_pos_r; lia.
    - rewrite <- Z.pow_add_r by lia. apply Z.pow_le_mono_r; lia. }
  rewrite u64_shl_small by lia.
  rewrite u64_shr_small by lia.
  rewrite Z.div_mul by lia.
  assert (H64 : 63 < 2 ^ 64) by reflexivity.
  unfold U64.sub at 2. rewrite (u64_wrap_small (e - s)) by lia.
  unfold U64.add. rewrite (u64_wrap_small (e - s + 1)) by lia.
  rewrite field_mask_ones by lia.
  rewrite Z.land_ones by lia.
  apply Z.mod_small. assumption.
Qed.

Lemma extract_field_value_roundtrip_witness :
  extract_field_value (U64.shl 5 52) 52 54 = 5.
Proof.
  apply (extract_field_value_roundtrip 52 54 5); lia.
Defined.

(** C3 (as stated) fails: bits 60..70 do not fit the 64-bit word, so the
    word [1024 << 60] is 0 and the field reads 0; and for the full-width
    field 0..63 the mask [(1ULL << 64) - 1], a shift by the word size,
    comes out as 0 on x86-64 and the field reads 0 as well. *)
Lemma extract_field_value_roundtrip_unbounded_fails :
  (60 <= 70 /\ 0 <= 1024 < 2 ^ (70 - 60 + 1)
   /\ extract_field_value (U64.shl 1024 60) 60 70 <> 1024)
  /\ (0 <= 63 /\ 0 <= 1 < 2 ^ (63 - 0 + 1)
      /\ extract_field_value (U64.shl 1 0) 0 63 <> 1).
Proof.
  repeat split; try lia; try reflexivity; vm_compute; discriminate.
Qed.

(** ** handle_node *)

Section HandleNode.

Variable P : rekall_t.
Variable MAX : nat.
Variable fresh : vad_seg_t.
Variable vmi : vmi_instance_t.

(** handle_node in closed form: the cap test, the skip test, the store. *)
Lemma handle_node_unfold node dump h :
  handle_node P MAX fresh vmi node dump h =
  if (MAX <=? segment_count dump)%nat then
    Done (dump, fprintf_stderr "handle_node: skipping VAD, SEG_COUNT_MAX reached." [] h)
  else if node_skipped P vmi node then Done (dump, h)
  else
    dump' ← store_segment dump (segment_count dump) (node_segment P vmi (pid dump) node);
    Done (set_segment_count (segment_count dump' + 1) dump', h).
Proof.
  unfold handle_node, node_skipped, vpn_readable, vad_base, vad_end, vmi_read_addr_va.
  destruct (MAX <=? segment_count dump)%nat; [reflexivity|].
  destruct (read_addr_va vmi (U64.add node (mmvad_startingvpn P)) 0) as [vs|] eqn:Hs;
    simpl; [|reflexivity].
  destruct (read_addr_va vmi (U64.add node (mmvad_endingvpn P)) 0) as [ve|] eqn:He;
    simpl; [|reflexivity].
  destruct ((U64.shl (U64.wrap vs) 12 =? 0) || (U64.shl (U64.wrap ve) 12 =? 0));
    [reflexivity|].
  unfold node_segment, node_bytes, vad_extent, vad_base, vad_end, vmi_read_addr_va, vmi_read_va.
  rewrite Hs, He. simpl.
  destruct (read_va vmi (U64.shl (U64.wrap vs) 12) (pid dump)
              (U64.sub (U64.shl (U64.wrap ve) 12) (U64.shl (U64.wrap vs) 12)))
    as [st bs] eqn:Hr.
  simpl.
  destruct (Z.of_nat (length bs) <? U64.sub (U64.shl (U64.wrap ve) 12) (U64.shl (U64.wrap vs) 12));
    simpl; [|reflexivity].
  unfold realloc. simpl. rewrite Nat2Z.id, firstn_all. reflexivity.
Qed.

Lemma node_skipped_true node :
  node_skipped P vmi node = true <->
  (read_addr_va vmi (U64.add node (mmvad_startingvpn P)) 0 = None
   \/ read_addr_va vmi (U64.add node (mmvad_endingvpn P)) 0 = None
   \/ vad_base P vmi node = 0 \/ vad_end P vmi node = 0).
Proof.
  unfold node_skipped, vpn_readable, vad_base, vad_end, vmi_read_addr_va.
  destruct (read_addr_va vmi (U64.add node (mmvad_startingvpn P)) 0) as [vs|];
    destruct (read_addr_va vmi (U64.add node (mmvad_endingvpn P)) 0) as [ve|]; simpl;
    rewrite ?orb_true_iff, ?Z.eqb_eq; split; intros H;
    repeat match goal with
           | H : _ \/ _ |- _ => destruct H
           | H : Some _ = None |- _ => discriminate H
           end; auto.
Qed.

(** The slots of a job after a store at its end. *)
Lemma job_segments_store dump seg :
  (segment_count dump < length (segments dump))%nat ->
  job_segments
    {| pid := pid dump; rip := rip dump; segment_count := segment_count dump + 1;
       segments := <[segment_count dump := Some seg]> (segments dump) |}
  = job_segments dump ++ [seg].
Proof.
  intros Hlt. unfold job_segments. simpl.
  rewrite Nat.add_1_r.
  rewrite (take_S_r _ _ (Some seg)) by (apply list_lookup_insert_eq; exact Hlt).
  rewrite take_insert_ge by lia.
  rewrite omap_app. reflexivity.
Qed.

(** What one call does to a job whose array has [MAX] slots. *)
Lemma handle_node_step node dump h :
  length (segments dump) = MAX ->
  exists dump' h',
    handle_node P MAX fresh vmi node dump h = Done (dump', h')
    /\ length (segments dump') = MAX
    /\ (((MAX <= segment_count dump)%nat /\ dump' = dump
         /\ h' = fprintf_stderr "handle_node: skipping VAD, SEG_COUNT_MAX reached." [] h)
        \/ ((segment_count dump < MAX)%nat /\ node_skipped P vmi node = true
            /\ dump' = dump /\ h' = h)
        \/ ((segment_count dump < MAX)%nat /\ node_skipped P vmi node = false
            /\ h' = h
            /\ dump' =
               {| pid := pid dump; rip := rip dump;
                  segment_count := segment_count dump + 1;
                  segments := <[segment_count dump := Some (node_segment P vmi (pid dump) node)]>
                                (segments dump) |})).
Proof.
  intros Hlen. rewrite handle_node_unfold.
  destruct (Nat.leb_spec MAX (segment_count dump)) as [Hcap|Hcap].
  { eexists _, _. split; [reflexivity|]. split; [exact Hlen|]. left. auto. }
  destruct (node_skipped P vmi node) eqn:Hskip.
  { eexists _, _. split; [reflexivity|]. split; [exact Hlen|]. right. left. auto. }
  unfold store_segment.
  destruct (Nat.ltb_spec (segment_count dump) (length (segments dump))) as [Hin|Hout];
    [|lia].
  simpl. eexists _, _. split; [reflexivity|].
  split; [simpl; rewrite length_insert; exact Hlen|].
  right. right. auto.
Qed.

(** Reading a call backwards: a call that moved [segment_count] stored the
    segment of its node in the slot the count pointed at. *)
Lemma handle_node_appended node dump h dump' h' :
  handle_node P MAX fresh vmi node dump h = Done (dump', h') ->
  segment_count dump' = S (segment_count dump) ->
  (segment_count dump < MAX)%nat
  /\ node_skipped P vmi node = false
  /\ (segment_count dump < length (segments dump))%nat
  /\ h' = h
  /\ segments dump' !! segment_count dump = Some (Some (node_segment P vmi (pid dump) node))
  /\ segments dump' = <[segment_count dump := Some (node_segment P vmi (pid dump) node)]>
                        (segments dump)
  /\ pid dump' = pid dump /\ rip dump' = rip dump.
Proof.
  rewrite handle_node_unfold. intros Hrun Hcount.
  destruct (Nat.leb_spec MAX (segment_count dump)) as [Hcap|Hcap].
  { inversion Hrun; subst. lia. }
  destruct (node_skipped P vmi node) eqn:Hskip.
  { inversion Hrun; subst. lia. }
  unfold store_segment in Hrun.
  destruct (Nat.ltb_spec (segment_count dump) (length (segments dump))) as [Hin|Hout];
    simpl in Hrun; [|discriminate Hrun].
  inversion Hrun; subst; simpl.
  rewrite list_lookup_insert_eq by exact Hin. auto 10.
Qed.

(** C8: for every VAD node whose starting or ending page number cannot be
    read, or whose computed base or end address is zero, handle_node
    returns without appending a segment and leaves the job as it was
    ([segment_count] and every slot of the array); below the cap it prints
    nothing either. *)
Theorem handle_node_skip_leaves_job_unchanged node dump h :
  read_addr_va vmi (U64.add node (mmvad_startingvpn P)) 0 = None
  \/ read_addr_va vmi (U64.add node (mmvad_endingvpn P)) 0 = None
  \/ vad_base P vmi node = 0 \/ vad_end P vmi node = 0 ->
  exists h',
    handle_node P MAX fresh vmi node dump h = Done (dump, h')
    /\ ((segment_count dump < MAX)%nat -> h' = h).
Proof.
  intros Hskip. apply node_skipped_true in Hskip.
  rewrite handle_node_unfold, Hskip.
  destruct (Nat.leb_spec MAX (segment_count dump)) as [Hcap|Hcap].
  - eexists. split; [reflexivity|]. lia.
  - eexists. split; [reflexivity|]. reflexivity.
Qed.

(** The invariant of the job under any list of calls. *)
Lemma visit_all_handle_node_cap nodes : forall dump h,
  length (segments dump) = MAX -> (segment_count dump <= MAX)%nat ->
  exists dump' h',
    visit_all vmi (handle_node P MAX fresh) nodes dump h = Done (dump', h')
    /\ length (segments dump') = MAX
    /\ (segment_count dump' <= MAX)%nat.
Proof.
  induction nodes as [|n nodes IH]; intros dump h Hlen Hcnt; simpl.
  - eexists _, _. split; [reflexivity|]. auto.
  - destruct (handle_node_step n dump h Hlen) as (d1 & h1 & Hrun & Hlen1 & Hcase).
    rewrite Hrun. simpl.
    apply IH; [exact Hlen1|].
    destruct Hcase as [(_ & -> & _)|[(_ & _ & -> & _)|(Hlt & _ & _ & ->)]]; simpl; lia.
Qed.

(** C2 (as amended): for a job whose array has [SEG_COUNT_MAX] slots and
    whose [segment_count] is at most [SEG_COUNT_MAX], every call of
    handle_node completes without indexing the array out of bounds and
    keeps both facts.  At the cap it prints the warning and leaves the job
    unchanged; below the cap it either leaves the job unchanged without a
    word (the node is one it skips) or appends exactly one segment.  Hence
    no sequence of calls takes [segment_count] past [SEG_COUNT_MAX]. *)
Theorem handle_node_keeps_segment_count_within_cap node nodes dump h :
  length (segments dump) = MAX -> (segment_count dump <= MAX)%nat ->
  (exists dump' h',
     handle_node P MAX fresh vmi node dump h = Done (dump', h')
     /\ length (segments dump') = MAX
     /\ (segment_count dump' <= MAX)%nat
     /\ (((MAX <= segment_count dump)%nat /\ dump' = dump
          /\ h' = fprintf_stderr "handle_node: skipping VAD, SEG_COUNT_MAX reached." [] h)
         \/ ((segment_count dump < MAX)%nat /\ node_skipped P vmi node = true
             /\ dump' = dump /\ h' = h)
         \/ ((segment_count dump < MAX)%nat /\ node_skipped P vmi node = false
             /\ h' = h
             /\ segment_count dump' = S (segment_count dump)
             /\ exists seg, job_segments dump' = job_segments dump ++ [seg])))
  /\ (exists dump' h',
        visit_all vmi (handle_node P MAX fresh) nodes dump h = Done (dump', h')
        /\ length (segments dump') = MAX
        /\ (segment_count dump' <= MAX)%nat).
Proof.
  intros Hlen Hcnt. split; [|apply visit_all_handle_node_cap; assumption].
  destruct (handle_node_step node dump h Hlen) as (d1 & h1 & Hrun & Hlen1 & Hcase).
  exists d1, h1. split; [exact Hrun|]. split; [exact Hlen1|].
  destruct Hcase as [(Hcap & -> & ->)|[(Hlt & Hskip & -> & ->)|(Hlt & Hskip & -> & ->)]].
  - split; [exact Hcnt|]. left. auto.
  - split; [exact Hcnt|]. right. left. auto.
  - split; [simpl; lia|]. right. right.
    repeat split; try assumption; [simpl; lia|].
    eexists. apply job_segments_store. lia.
Qed.

(** C4: for every segment appended by handle_node, the recorded size never
    exceeds the virtual extent [end - base]; the buffer is as long as the
    recorded size and holds the bytes the guest read copied; when the read
    returned fewer bytes than the extent, size and buffer are the number of
    bytes read; the size equals the extent exactly when the read was not
    short; and, the read never copying more than it was asked for, the
    recorded size is the number of bytes it returned. *)
Theorem handle_node_size_is_bytes_read node dump h dump' h' :
  handle_node P MAX fresh vmi node dump h = Done (dump', h') ->
  segment_count dump' = S (segment_count dump) ->
  exists seg,
    segments dump' !! segment_count dump = Some (Some seg)
    /\ let read_size := Z.of_nat (length (node_bytes P vmi (pid dump) node)) in
       let extent := vad_extent P vmi node in
       size seg <= extent
       /\ capacity (buf seg) = size seg
       /\ bytes (buf seg) = node_bytes P vmi (pid dump) node
       /\ (read_size < extent -> size seg = read_size /\ capacity (buf seg) = read_size)
       /\ (size seg = extent <-> ~ read_size < extent)
       /\ (read_size <= extent -> size seg = read_size).
Proof.
  intros Hrun Hcount.
  destruct (handle_node_appended _ _ _ _ _ Hrun Hcount) as (_ & _ & _ & _ & Hslot & _).
  eexists. split; [exact Hslot|]. simpl.
  destruct (Z.ltb_spec (Z.of_nat (length (node_bytes P vmi (pid dump) node)))
              (vad_extent P vmi node)) as [Hshort|Hfull];
    repeat split; intros; lia.
Qed.

End HandleNode.

Lemma handle_node_skip_leaves_job_unchanged_witness :
  exists h',
    handle_node Sample.profile 4 Sample.junk Sample.guest 0x9000 (Sample.empty_job 4)
      Sample.quiet = Done (Sample.empty_job 4, h')
    /\ ((segment_count (Sample.empty_job 4) < 4)%nat -> h' = Sample.quiet).
Proof.
  apply (handle_node_skip_leaves_job_unchanged Sample.profile 4 Sample.junk Sample.guest
           0x9000 (Sample.empty_job 4) Sample.quiet).
  left. reflexivity.
Defined.

(** C2 (as stated) fails: it leaves no room for a call below the cap that
    appends nothing.  On a job of four slots with [segment_count] 0, the
    call for a node whose page numbers cannot be read returns the job as it
    was and prints no warning. *)
Lemma handle_node_below_cap_appends_nothing :
  length (segments (Sample.empty_job 4)) = 4%nat
  /\ (segment_count (Sample.empty_job 4) < 4)%nat
  /\ handle_node Sample.profile 4 Sample.junk Sample.guest 0x9000 (Sample.empty_job 4)
       Sample.quiet = Done (Sample.empty_job 4, Sample.quiet).
Proof.
  split; [reflexivity|]. split; [simpl; lia|]. vm_compute. reflexivity.
Qed.

Lemma handle_node_keeps_segment_count_within_cap_witness :
  exists dump' h',
    visit_all Sample.guest (handle_node Sample.profile 2 Sample.junk)
      [0x2000; 0x1000; 0x3000] (Sample.empty_job 2) Sample.quiet = Done (dump', h')
    /\ length (segments dump') = 2%nat
    /\ (segment_count dump' <= 2)%nat.
Proof.
  destruct (handle_node_keeps_segment_count_within_cap Sample.profile 2 Sample.junk
              Sample.guest 0x1000 [0x2000; 0x1000; 0x3000] (Sample.empty_job 2)
              Sample.quiet) as [_ H].
  - reflexivity.
  - simpl. lia.
  - exact H.
Defined.

Lemma handle_node_size_is_bytes_read_witness :
  exists seg,
    segments Sample.root_job !! 0%nat = Some (Some seg)
    /\ size seg = 3 /\ capacity (buf seg) = 3 /\ size seg <= 0x2000.
Proof.
  destruct (handle_node_size_is_bytes_read Sample.profile 4 Sample.junk Sample.guest
              0x1000 (Sample.empty_job 4) Sample.quiet Sample.root_job Sample.quiet)
    as (seg & Hslot & Hle & _ & _ & Hshort & _).
  - vm_compute. reflexivity.
  - reflexivity.
  - exists seg. split; [exact Hslot|].
    destruct Hshort as [Hsize Hcap]; [vm_compute; reflexivity|].
    split; [exact Hsize|]. split; [exact Hcap|exact Hle].
Defined.

(** C10: for every segment appended by handle_node, [va_size] is the full
    virtual extent [end - base] of the node; and whatever the bulk read
    returns instead (short or not), the call stores in the same slot a
    segment that differs from this one in [buf] and [size] alone. *)
Theorem handle_node_va_size_is_extent (P : rekall_t) (MAX : nat) (fresh : vad_seg_t)
  (vmi : vmi_instance_t) node dump h dump' h' :
  handle_node P MAX fresh vmi node dump h = Done (dump', h') ->
  segment_count dump' = S (segment_count dump) ->
  exists seg,
    segments dump' !! segment_count dump = Some (Some seg)
    /\ va_size seg = vad_extent P vmi node
    /\ va_size seg = U64.sub (vad_end P vmi node) (base_va seg)
    /\ forall rv, exists seg2,
         handle_node P MAX fresh (with_read_va rv vmi) node dump h =
         Done ({| pid := pid dump; rip := rip dump;
                  segment_count := segment_count dump + 1;
                  segments := <[segment_count dump := Some seg2]> (segments dump) |}, h)
         /\ va_size seg2 = va_size seg
         /\ set_buf (buf seg) (set_size (size seg) seg2) = seg.
Proof.
  intros Hrun Hcount.
  destruct (handle_node_appended _ _ _ _ _ _ _ _ _ Hrun Hcount)
    as (Hcap & Hskip & Hin & _ & Hslot & _).
  eexists. split; [exact Hslot|]. split; [reflexivity|]. split; [reflexivity|].
  intros rv. exists (node_segment P (with_read_va rv vmi) (pid dump) node).
  split; [|split; reflexivity].
  rewrite handle_node_unfold.
  destruct (Nat.leb_spec MAX (segment_count dump)); [lia|].
  change (node_skipped P (with_read_va rv vmi) node) with (node_skipped P vmi node).
  rewrite Hskip. unfold store_segment.
  destruct (Nat.ltb_spec (segment_count dump) (length (segments dump))); [|lia].
  reflexivity.
Qed.

Lemma handle_node_va_size_is_extent_witness :
  exists seg,
    segments Sample.root_job !! 0%nat = Some (Some seg)
    /\ va_size seg = 0x2000.
Proof.
  destruct (handle_node_va_size_is_extent Sample.profile 4 Sample.junk Sample.guest
              0x1000 (Sample.empty_job 4) Sample.quiet Sample.root_job Sample.quiet)
    as (seg & Hslot & Hva & _).
  - vm_compute. reflexivity.
  - reflexivity.
  - exists seg. split; [exact Hslot|exact Hva].
Defined.


(** ** get_node_filename *)

(** The mask [0xFFFFFFFFFFFFFFF8] clears the low three bits of a word. *)
Lemma fast_ref_mask x : 0 <= x < 2 ^ 64 -> Z.land x 0xFFFFFFFFFFFFFFF8 = 8 * (x / 8).
Proof.
  intros Hx.
  change 0xFFFFFFFFFFFFFFF8 with (Z.shiftl (Z.ones 61) 3).
  replace (8 * (x / 8)) with (Z.shiftl (Z.shiftr x 3) 3)
    by (rewrite Z.shiftl_mul_pow2, Z.shiftr_div_pow2 by lia; change (2 ^ 3) with 8; lia).
  apply Z.bits_inj'. intros n Hn. rewrite Z.land_spec.
  destruct (Z.lt_ge_cases n 3) as [Hlow|Hhigh].
  - rewrite !Z.shiftl_spec_low by lia. apply andb_false_r.
  - rewrite !Z.shiftl_spec by lia. rewrite Z.shiftr_spec by lia.
    replace (n - 3 + 3) with n by lia.
    destruct (Z.lt_ge_cases n 64) as [Hin|Hout].
    + rewrite Z.ones_spec_low by lia. apply andb_true_r.
    + rewrite Z.ones_spec_high by lia. rewrite andb_false_r. symmetry.
      destruct (Z.eq_dec x 0) as [->|Hnz]; [apply Z.bits_0|].
      apply Z.bits_above_log2; [lia|].
      apply Z.lt_le_trans with 64; [|lia].
      apply Z.log2_lt_pow2; lia.
Qed.

Lemma pointer_field_range vmi off node : 0 <= pointer_field vmi off node < 2 ^ 64.
Proof.
  unfold pointer_field, vmi_read_addr_va.
  destruct (read_addr_va vmi (U64.add node off) 0); simpl.
  - apply u64_wrap_range.
  - split; [lia|reflexivity].
Qed.

(** C9: get_node_filename reads the control-area pointer of the node, then
    the file-object reference of the control area, clears the low three
    bits of that reference, and reads the filename pointer of the file
    object.  When a pointer it reads is zero, or the Unicode string cannot
    be read, the output is left as it was; otherwise the output is what the
    conversion of that string to UTF-8 stores. *)
Theorem get_node_filename_chain (P : rekall_t) (vmi : vmi_instance_t) (node : Z)
  (fn_utf8 : unicode_string_t) :
  let control_area := pointer_field vmi (mmvad_controlarea P) node in
  let file_object := pointer_field vmi (controlarea_fileobject P) control_area in
  let filename_ptr := pointer_field vmi (fileobject_filename P) (8 * (file_object / 8)) in
  (control_area = 0 \/ file_object = 0 \/ filename_ptr = 0
   \/ vmi_read_unicode_str_va vmi filename_ptr 0 = None ->
   get_node_filename P vmi node fn_utf8 = fn_utf8)
  /\ (forall fn_ustr,
        control_area <> 0 -> file_object <> 0 -> filename_ptr <> 0 ->
        vmi_read_unicode_str_va vmi filename_ptr 0 = Some fn_ustr ->
        get_node_filename P vmi node fn_utf8 =
        snd (vmi_convert_str_encoding vmi fn_ustr "UTF-8")).
Proof.
  intros control_area file_object filename_ptr.
  assert (Hmask : Z.land file_object 0xFFFFFFFFFFFFFFF8 = 8 * (file_object / 8))
    by apply fast_ref_mask, pointer_field_range.
  assert (Hrun : get_node_filename P vmi node fn_utf8 =
                 if control_area =? 0 then fn_utf8
                 else if file_object =? 0 then fn_utf8
                 else if filename_ptr =? 0 then fn_utf8
                 else match vmi_read_unicode_str_va vmi filename_ptr 0 with
                      | None => fn_utf8
                      | Some fn_ustr => snd (vmi_convert_str_encoding vmi fn_ustr "UTF-8")
                      end).
  { unfold get_node_filename.
    fold (pointer_field vmi (mmvad_controlarea P) node).
    replace (vmi_read_addr_va vmi (U64.add node (mmvad_controlarea P)) 0 0)
      with (fst (vmi_read_addr_va vmi (U64.add node (mmvad_controlarea P)) 0 0), control_area)
      by (unfold control_area, pointer_field; now destruct (vmi_read_addr_va _ _ _ _)).
    destruct (control_area =? 0); [reflexivity|].
    replace (vmi_read_addr_va vmi (U64.add control_area (controlarea_fileobject P)) 0 0)
      with (fst (vmi_read_addr_va vmi (U64.add control_area (controlarea_fileobject P)) 0 0),
            file_object)
      by (unfold file_object, pointer_field; now destruct (vmi_read_addr_va _ _ _ _)).
    destruct (file_object =? 0); [reflexivity|].
    rewrite Hmask.
    replace (vmi_read_addr_va vmi (U64.add (8 * (file_object / 8)) (fileobject_filename P)) 0 0)
      with (fst (vmi_read_addr_va vmi
                   (U64.add (8 * (file_object / 8)) (fileobject_filename P)) 0 0),
            filename_ptr)
      by (unfold filename_ptr, pointer_field; now destruct (vmi_read_addr_va _ _ _ _)).
    reflexivity. }
  rewrite Hrun. clear Hrun Hmask.
  destruct (Z.eqb_spec control_area 0) as [Hc|Hc];
    [split; [reflexivity|intros; contradiction]|].
  destruct (Z.eqb_spec file_object 0) as [Hf|Hf];
    [split; [reflexivity|intros; contradiction]|].
  destruct (Z.eqb_spec filename_ptr 0) as [Hn|Hn];
    [split; [reflexivity|intros; contradiction]|].
  split.
  - intros [H|[H|[H|H]]]; try contradiction. rewrite H. reflexivity.
  - intros fn_ustr _ _ _ H. rewrite H. reflexivity.
Qed.

Lemma get_node_filename_chain_witness :
  get_node_filename Sample.profile Sample.guest 0x2000 Sample.image_name = Sample.image_name
  /\ get_node_filename Sample.profile Sample.guest 0x1000 unicode_string_zero
     = Sample.image_name_utf8.
Proof.
  split.
  - apply (proj1 (get_node_filename_chain Sample.profile Sample.guest 0x2000
                    Sample.image_name)).
    left. reflexivity.
  - apply (proj2 (get_node_filename_chain Sample.profile Sample.guest 0x1000
                    unicode_string_zero) Sample.image_name);
      vm_compute; congruence.
Defined.

(** ** process_layer *)

(** C5: in process_layer, for a faulting segment of nonzero size whose
    buffer could be allocated, the job is emitted whatever the guest read
    returns, short or not: exactly one entry is added to the dump queue,
    holding the buffer with the bytes that were read and, as its length,
    the number of bytes read. *)
Theorem process_layer_queues_bytes_read (malloc_ok : Z -> bool) (vmi : vmi_instance_t)
  (event : vmi_event_t) (pid_ page_cat : Z) (h : host_t) :
  let vma := vmi_current_find_segment vmi event (mem_event_gla event) in
  let copied := snd (read_va vmi (MemSeg.base_va vma) pid_ (MemSeg.size vma)) in
  MemSeg.size vma <> 0 ->
  malloc_ok (MemSeg.size vma) = true ->
  dump_queue (process_layer malloc_ok vmi event pid_ page_cat h) =
  dump_queue h ++
    [ {| layer_buffer := {| capacity := MemSeg.size vma; bytes := copied |};
         layer_size := Z.of_nat (length copied);
         layer_pid := pid_;
         layer_rip := x86_regs_rip event;
         layer_base := MemSeg.base_va vma |} ].
Proof.
  intros vma copied Hsize Halloc.
  unfold process_layer. fold vma.
  apply Z.eqb_neq in Hsize. rewrite Hsize, Halloc. simpl.
  unfold vmi_read_va, copied.
  destruct (read_va vmi (MemSeg.base_va vma) pid_ (MemSeg.size vma)) as [st bs].
  reflexivity.
Qed.

Lemma process_layer_queues_bytes_read_witness :
  dump_queue (process_layer (fun _ => true) Sample.guest Sample.event 1234 0 Sample.quiet) =
  [ {| layer_buffer := {| capacity := 0x2000; bytes := [x90; x90; xc3] |};
       layer_size := 3; layer_pid := 1234; layer_rip := 0x20123;
       layer_base := 0x20000 |} ].
Proof.
  apply (process_layer_queues_bytes_read (fun _ => true) Sample.guest Sample.event 1234 0
           Sample.quiet).
  - vm_compute. discriminate.
  - reflexivity.
Defined.

(** ** The sequence counter of the output module *)

Section Sequence.

Variables domain_name vol_profile output_dir : string.

Local Abbreviation fire := (Output.fire domain_name vol_profile output_dir).
Local Abbreviation run := (Output.run domain_name vol_profile output_dir).

Lemma i32_wrap_small x : 0 <= x <= I32.max_signed -> I32.wrap x = x.
Proof.
  intros Hx. unfold I32.wrap.
  assert (Hmax : I32.max_signed < I32.modulus) by reflexivity.
  rewrite Z.mod_small by lia.
  destruct (Z.leb_spec x I32.max_signed); [reflexivity|lia].
Qed.

Lemma run_snoc ts t st : run (ts ++ [t]) st = fire (run ts st) t.
Proof. unfold Output.run. apply fold_left_app. Qed.

(** The counter after a run that stays within [int]. *)
Lemma run_dump_count ts :
  Z.of_nat (length ts) <= I32.max_signed ->
  Output.dump_count (run ts Output.initial) = Z.of_nat (length ts).
Proof.
  induction ts as [|t ts IH] using rev_ind; intros Hlen.
  - reflexivity.
  - rewrite length_app in Hlen. simpl in Hlen.
    rewrite run_snoc, length_app. simpl.
    rewrite IH by lia. rewrite i32_wrap_small by lia. lia.
Qed.

(** C6: the counter starts at 0; the callback fired for the n-th trigger
    of a run (after [n - 1] earlier ones, within the range of [int]) finds
    the counter at [n - 1], puts that number in every name it builds, and
    leaves the counter at [n]. *)
Theorem dump_sequence_numbers (ts : list Output.trigger) (t : Output.trigger) :
  Z.of_nat (length ts) < I32.max_signed ->
  let before := run ts Output.initial in
  let after := fire before t in
  Output.dump_count Output.initial = 0
  /\ Output.dump_count before = Z.of_nat (length ts)
  /\ Output.dump_count after = Z.of_nat (length ts) + 1
  /\ exists fx,
       Output.effects after = Output.effects before ++ fx
       /\ fx <> []
       /\ Forall (fun e => Forall (fun n => n = Z.of_nat (length ts)) (Output.effect_seqs e)) fx.
Proof.
  intros Hlen before after.
  assert (Hbefore : Output.dump_count before = Z.of_nat (length ts))
    by (apply run_dump_count; lia).
  split; [reflexivity|]. split; [exact Hbefore|]. split.
  - unfold after, Output.fire, Output.volatility_callback_vaddump. simpl.
    rewrite Hbefore. apply i32_wrap_small. lia.
  - unfold after, Output.fire, Output.volatility_callback_vaddump,
      Output.volatility_vaddump, Output.volatility_vadinfo, Output.add_rip_to_json.
    simpl. rewrite Hbefore.
    eexists. split.
    + rewrite <- !app_assoc. reflexivity.
    + split; [discriminate|].
      repeat (apply Forall_cons; split; [simpl; repeat constructor|]).
      apply Forall_nil. exact I.
Qed.

End Sequence.

Lemma dump_sequence_numbers_witness :
  Output.dump_count
    (Output.run "win7" "Win7SP1x64" "/tmp/out" [Sample.trigger; Sample.trigger]
       Output.initial) = 2
  /\ Output.dump_count
       (Output.fire "win7" "Win7SP1x64" "/tmp/out"
          (Output.run "win7" "Win7SP1x64" "/tmp/out" [Sample.trigger; Sample.trigger]
             Output.initial)
          Sample.trigger) = 3.
Proof.
  destruct (dump_sequence_numbers "win7" "Win7SP1x64" "/tmp/out"
              [Sample.trigger; Sample.trigger] Sample.trigger)
    as (_ & Hbefore & Hafter & _).
  - vm_compute. reflexivity.
  - split; [exact Hbefore|exact Hafter].
Defined.

(** ** vad_iterator *)

Section Walk.

Variable P : rekall_t.
Variable vmi : vmi_instance_t.

Local Abbreviation left_msg := "vad_iterator: Left node could not be read"%string.
Local Abbreviation right_msg := "vad_iterator: Right node could not be read"%string.

(** One level of the recursion, with the two child pointers named. *)
Lemma vad_iterator_unfold {A : Type} fuel node (func : traverse_func A) data h :
  vad_iterator P (S fuel) vmi node func data h =
  (let h := report_child vmi (mmvad_leftchild P) node left_msg h in
   '(data, h) ←
     (if left_child P vmi node =? 0 then Done (data, h)
      else vad_iterator P fuel vmi (left_child P vmi node) func data h);
   '(data, h) ← func vmi node data h;
   let h := report_child vmi (mmvad_rightchild P) node right_msg h in
   if right_child P vmi node =? 0 then Done (data, h)
   else vad_iterator P fuel vmi (right_child P vmi node) func data h).
Proof.
  simpl. unfold left_child, right_child, pointer_field, report_child, vmi_read_addr_va.
  destruct (read_addr_va vmi (U64.add node (mmvad_leftchild P)) 0);
    destruct (read_addr_va vmi (U64.add node (mmvad_rightchild P)) 0); reflexivity.
Qed.

Lemma unreadable_child off node msg h :
  read_addr_va vmi (U64.add node off) 0 = None ->
  pointer_field vmi off node = 0 /\ report_child vmi off node msg h = fprintf_stderr msg [] h.
Proof.
  intros Hread. unfold pointer_field, report_child, vmi_read_addr_va.
  rewrite Hread. split; reflexivity.
Qed.

(** C7: when the left child pointer of a node cannot be read, vad_iterator
    prints the failure, makes no call for a left subtree, visits the node,
    and goes on into the right subtree as it would have; when the right
    child pointer cannot be read, it walks the left subtree, visits the
    node, prints the failure and returns to its caller, whose walk goes
    on. *)
Theorem vad_iterator_unreadable_child {A : Type} fuel node (func : traverse_func A) data h :
  (read_addr_va vmi (U64.add node (mmvad_leftchild P)) 0 = None ->
   vad_iterator P (S fuel) vmi node func data h =
   ('(data, h) ← func vmi node data (fprintf_stderr left_msg [] h);
    let h := report_child vmi (mmvad_rightchild P) node right_msg h in
    if right_child P vmi node =? 0 then Done (data, h)
    else vad_iterator P fuel vmi (right_child P vmi node) func data h))
  /\ (read_addr_va vmi (U64.add node (mmvad_rightchild P)) 0 = None ->
      vad_iterator P (S fuel) vmi node func data h =
      (let h := report_child vmi (mmvad_leftchild P) node left_msg h in
       '(data, h) ←
         (if left_child P vmi node =? 0 then Done (data, h)
          else vad_iterator P fuel vmi (left_child P vmi node) func data h);
       '(data, h) ← func vmi node data h;
       Done (data, fprintf_stderr right_msg [] h))).
Proof.
  split; intros Hread; rewrite vad_iterator_unfold.
  - destruct (unreadable_child _ _ left_msg h Hread) as [Hptr Hlog].
    unfold left_child. rewrite Hptr, Hlog. reflexivity.
  - unfold right_child.
    rewrite (proj1 (unreadable_child _ _ right_msg h Hread)). simpl.
    destruct (if left_child P vmi node =? 0 then _ else _) as [[d1 h1]|f]; simpl;
      [|reflexivity].
    destruct (func vmi node d1 h1) as [[d2 h2]|f]; simpl; [|reflexivity].
    rewrite (proj2 (unreadable_child _ _ right_msg h2 Hread)). reflexivity.
Qed.

(** Below a child pointer there is either nothing, and the pointer is
    null, or a tree rooted at a pointer that is not. *)
Lemma subtree_at_cases t ptr :
  subtree_at P vmi t ptr = true ->
  (t = VadNil /\ ptr = 0) \/ (ptr <> 0 /\ vad_tree_at P vmi t ptr = true).
Proof.
  destruct t as [|l n r]; simpl; intros H.
  - left. split; [reflexivity|]. now apply Z.eqb_eq.
  - right. rewrite !andb_true_iff in H. destruct H as [[[Hp Hn] Hl] Hr].
    apply Z.eqb_eq in Hp. subst ptr. apply negb_true_iff, Z.eqb_neq in Hn.
    split; [exact Hn|]. now rewrite Z.eqb_refl, Hl, Hr.
Qed.

(** On a tree in guest memory, with fuel for its height, vad_iterator is
    the walk along the tree. *)
Lemma vad_iterator_walk {A : Type} (func : traverse_func A) t :
  forall fuel root data h,
    vad_tree_at P vmi t root = true -> (height t <= fuel)%nat ->
    vad_iterator P fuel vmi root func data h = walk P vmi func t data h.
Proof.
  induction t as [|l IHl n r IHr]; intros fuel root data h Hshape Hfuel.
  - discriminate Hshape.
  - simpl in Hshape. rewrite !andb_true_iff in Hshape.
    destruct Hshape as [[Hroot Hl] Hr]. apply Z.eqb_eq in Hroot. subst root.
    destruct fuel as [|fuel]; [simpl in Hfuel; lia|].
    simpl in Hfuel.
    rewrite vad_iterator_unfold. cbn [walk].
    set (h0 := report_child vmi (mmvad_leftchild P) n left_msg h).
    assert (Hleft : (if left_child P vmi n =? 0 then Done (data, h0)
                     else vad_iterator P fuel vmi (left_child P vmi n) func data h0)
                    = walk P vmi func l data h0).
    { destruct (subtree_at_cases _ _ Hl) as [[-> ->]|[Hnz Hat]].
      - reflexivity.
      - apply Z.eqb_neq in Hnz. rewrite Hnz. apply IHl; [exact Hat|lia]. }
    rewrite Hleft.
    destruct (walk P vmi func l data h0) as [[d1 h1]|f]; simpl; [|reflexivity].
    destruct (func vmi n d1 h1) as [[d2 h2]|f]; simpl; [|reflexivity].
    destruct (subtree_at_cases _ _ Hr) as [[-> ->]|[Hnz Hat]].
    + reflexivity.
    + apply Z.eqb_neq in Hnz. rewrite Hnz. apply IHr; [exact Hat|lia].
Qed.

(** The walk shows the noting visitor the nodes in in-order. *)
Lemma walk_note_node t : forall seen h,
  exists h', walk P vmi note_node t seen h = Done (seen ++ inorder t, h').
Proof.
  induction t as [|l IHl n r IHr]; intros seen h; simpl.
  - eexists. now rewrite app_nil_r.
  - destruct (IHl seen (report_child vmi (mmvad_leftchild P) n left_msg h)) as [h1 ->].
    simpl.
    destruct (IHr ((seen ++ inorder l) ++ [n])
                (report_child vmi (mmvad_rightchild P) n right_msg h1)) as [h2 ->].
    eexists. now rewrite <- !app_assoc.
Qed.

Variable MAX : nat.
Variable fresh : vad_seg_t.

(** The walk with handle_node appends, to a job whose array has [MAX]
    slots, segments whose bases are picked, in order, from the bases of the
    nodes in in-order. *)
Lemma walk_handle_node t : forall dump h,
  length (segments dump) = MAX ->
  exists dump' h' new,
    walk P vmi (handle_node P MAX fresh) t dump h = Done (dump', h')
    /\ length (segments dump') = MAX
    /\ job_segments dump' = job_segments dump ++ new
    /\ sublist (map base_va new) (map (vad_base P vmi) (inorder t)).
Proof.
  induction t as [|l IHl n r IHr]; intros dump h Hlen; simpl.
  - exists dump, h, []. rewrite app_nil_r. repeat split; try assumption. constructor.
  - destruct (IHl dump (report_child vmi (mmvad_leftchild P) n left_msg h) Hlen)
      as (d1 & h1 & new1 & -> & Hlen1 & Hseg1 & Hsub1).
    simpl.
    destruct (handle_node_step P MAX fresh vmi n d1 h1 Hlen1)
      as (d2 & h2 & -> & Hlen2 & Hcase).
    simpl.
    destruct (IHr d2 (report_child vmi (mmvad_rightchild P) n right_msg h2) Hlen2)
      as (d3 & h3 & new3 & -> & Hlen3 & Hseg3 & Hsub3).
    rewrite map_app. simpl.
    destruct Hcase as [(_ & -> & _)|[(_ & _ & -> & _)|(Hlt & _ & _ & ->)]].
    + exists d3, h3, (new1 ++ new3). rewrite Hseg3, Hseg1, map_app, app_assoc.
      repeat split; try assumption.
      apply sublist_app; [exact Hsub1|]. now apply sublist_cons.
    + exists d3, h3, (new1 ++ new3). rewrite Hseg3, Hseg1, map_app, app_assoc.
      repeat split; try assumption.
      apply sublist_app; [exact Hsub1|]. now apply sublist_cons.
    + exists d3, h3, (new1 ++ node_segment P vmi (pid d1) n :: new3).
      rewrite Hseg3, job_segments_store by lia.
      rewrite Hseg1, map_app, <- !app_assoc. simpl.
      repeat split; try assumption.
      apply sublist_app; [exact Hsub1|]. now apply sublist_skip.
Qed.

End Walk.

Lemma vad_iterator_unreadable_child_witness :
  vad_iterator Sample.profile 1 Sample.guest 0x3000 note_node [] Sample.quiet
  = Done ([0x3000],
          fprintf_stderr "vad_iterator: Left node could not be read" [] Sample.quiet)
  /\ vad_iterator Sample.profile 1 Sample.guest 0x2000 note_node [] Sample.quiet
     = Done ([0x2000],
             fprintf_stderr "vad_iterator: Right node could not be read" [] Sample.quiet).
Proof.
  split.
  - etransitivity.
    + apply (proj1 (vad_iterator_unreadable_child Sample.profile Sample.guest 0 0x3000
                      note_node [] Sample.quiet)).
      reflexivity.
    + reflexivity.
  - etransitivity.
    + apply (proj2 (vad_iterator_unreadable_child Sample.profile Sample.guest 0 0x2000
                      note_node [] Sample.quiet)).
      reflexivity.
    + reflexivity.
Defined.

(** ** Search-tree order *)

Lemma is_bst_sorted key t :
  is_bst key t = true -> StronglySorted Z.lt (map key (inorder t)).
Proof.
  induction t as [|l IHl n r IHr]; simpl; intros H.
  - constructor.
  - rewrite !andb_true_iff in H. destruct H as [[[Hl Hr] Hbl] Hbr].
    rewrite map_app. simpl.
    rewrite forallb_forall in Hl, Hr.
    apply StronglySorted_app; repeat split.
    + intros x1 x2 Hx1 Hx2.
      apply list_elem_of_fmap in Hx1 as (m1 & -> & Hm1).
      apply list_elem_of_In in Hm1. specialize (Hl _ Hm1). apply Z.ltb_lt in Hl.
      apply elem_of_cons in Hx2 as [->|Hx2]; [exact Hl|].
      apply list_elem_of_fmap in Hx2 as (m2 & -> & Hm2).
      apply list_elem_of_In in Hm2. specialize (Hr _ Hm2). apply Z.ltb_lt in Hr. lia.
    + apply IHl, Hbl.
    + apply StronglySorted_cons. split; [|apply IHr, Hbr].
      apply Forall_forall. intros x Hx.
      apply list_elem_of_fmap in Hx as (m & -> & Hm).
      apply list_elem_of_In in Hm. specialize (Hr _ Hm). now apply Z.ltb_lt in Hr.
Qed.

Lemma sublist_strongly_sorted (l1 l2 : list Z) :
  sublist l1 l2 -> StronglySorted Z.lt l2 -> StronglySorted Z.lt l1.
Proof.
  induction 1 as [|x l1 l2 Hsub IH|x l1 l2 Hsub IH]; intros Hs.
  - constructor.
  - apply StronglySorted_cons in Hs as [Hall Hs].
    apply StronglySorted_cons. split; [|apply IH, Hs].
    apply Forall_forall. intros y Hy. rewrite Forall_forall in Hall.
    apply Hall. eapply elem_of_sublist; [exact Hy|exact Hsub].
  - apply StronglySorted_cons in Hs as [_ Hs]. apply IH, Hs.
Qed.

(** The walk keeps a job within its cap. *)
Lemma walk_handle_node_cap P vmi MAX fresh t : forall dump h dump' h',
  length (segments dump) = MAX -> (segment_count dump <= MAX)%nat ->
  walk P vmi (handle_node P MAX fresh) t dump h = Done (dump', h') ->
  length (segments dump') = MAX /\ (segment_count dump' <= MAX)%nat.
Proof.
  induction t as [|l IHl n r IHr]; intros dump h dump' h' Hlen Hcnt Hrun; simpl in Hrun.
  - inversion Hrun; subst. auto.
  - destruct (walk P vmi (handle_node P MAX fresh) l dump _) as [[d1 h1]|f] eqn:Hl;
      simpl in Hrun; [|discriminate Hrun].
    destruct (IHl _ _ _ _ Hlen Hcnt Hl) as [Hlen1 Hcnt1].
    destruct (handle_node_step P MAX fresh vmi n d1 h1 Hlen1)
      as (d2 & h2 & Hstep & Hlen2 & Hcase).
    rewrite Hstep in Hrun. simpl in Hrun.
    apply (IHr _ _ _ _ Hlen2) in Hrun; [exact Hrun|].
    destruct Hcase as [(_ & -> & _)|[(_ & _ & -> & _)|(Hlt & _ & _ & ->)]]; simpl; lia.
Qed.

(** vad_dump_process, on a search tree below the VAD root of the process,
    queues one job: at most [MAX] segments, ascending by base. *)
Lemma vad_dump_process_queues_ascending_job P MAX fresh vmi event pid_ page_cat h t fuel :
  vad_tree_at P vmi t
    (vmi_get_eprocess_vadroot vmi (windows_find_eprocess_pgd vmi (x86_regs_cr3 event))) = true ->
  is_bst (vad_base P vmi) t = true ->
  (height t <= fuel)%nat ->
  exists dump h1,
    vad_dump_process P MAX fresh fuel vmi event pid_ page_cat h
    = Done (queue_vads_to_dump dump h1)
    /\ (segment_count dump <= MAX)%nat
    /\ StronglySorted Z.lt (map base_va (job_segments dump)).
Proof.
  intros Hshape Hbst Hfuel. unfold vad_dump_process.
  rewrite (vad_iterator_walk P vmi (handle_node P MAX fresh) t) by assumption.
  set (job := {| pid := pid_; rip := x86_regs_rip event; segment_count := 0;
                 segments := replicate MAX None |}).
  assert (Hlen : length (segments job) = MAX) by apply length_replicate.
  destruct (walk_handle_node P vmi MAX fresh t job h Hlen)
    as (d & h1 & new & Hrun & _ & Hseg & Hsub).
  destruct (walk_handle_node_cap P vmi MAX fresh t job h d h1 Hlen (Nat.le_0_l _) Hrun)
    as [_ Hcnt].
  rewrite Hrun. simpl. exists d, h1. split; [reflexivity|]. split; [exact Hcnt|].
  rewrite Hseg. simpl.
  eapply sublist_strongly_sorted; [exact Hsub|]. apply is_bst_sorted, Hbst.
Qed.

(** On the sample guest with a cap of two, the walk keeps the two lowest
    regions and warns once for the third. *)
Example sample_walk_hits_cap :
  match vad_dump_process Sample.profile 2 Sample.junk 2 Sample.guest Sample.event 1234 0
          Sample.quiet with
  | Done h =>
    map (fun d => map base_va (job_segments d)) (vad_queue h) = [[0x10000; 0x20000]]
    /\ map format (stderr h) =
       [ "vad_iterator: Right node could not be read"%string;
         "vad_iterator: Left node could not be read"%string;
         "handle_node: skipping VAD, SEG_COUNT_MAX reached."%string ]
  | Fault _ => False
  end.
Proof. vm_compute. split; reflexivity. Qed.

(** C1: for a VAD tree in guest memory that is a search tree on the
    virtual addresses of its nodes, vad_iterator (given fuel for the height
    of the tree) calls any visitor as the walk along the tree does, left
    subtree, node, right subtree, so the noting visitor sees the nodes in
    in-order; and the segments handle_node appends to a job whose array has
    [SEG_COUNT_MAX] slots have strictly ascending [base_va]. *)
Theorem vad_iterator_inorder_ascending (P : rekall_t) (MAX : nat) (fresh : vad_seg_t)
  (vmi : vmi_instance_t) (t : vad_tree) (root : Z) (fuel : nat)
  (dump : dump_layer_t) (h : host_t) :
  vad_tree_at P vmi t root = true ->
  is_bst (vad_base P vmi) t = true ->
  (height t <= fuel)%nat ->
  length (segments dump) = MAX ->
  (forall (A : Type) (func : traverse_func A) data h0,
      vad_iterator P fuel vmi root func data h0 = walk P vmi func t data h0)
  /\ (forall seen h0, exists h1,
        vad_iterator P fuel vmi root note_node seen h0 = Done (seen ++ inorder t, h1))
  /\ exists dump' h' new,
       vad_iterator P fuel vmi root (handle_node P MAX fresh) dump h = Done (dump', h')
       /\ job_segments dump' = job_segments dump ++ new
       /\ sublist (map base_va new) (map (vad_base P vmi) (inorder t))
       /\ StronglySorted Z.lt (map base_va new).
Proof.
  intros Hshape Hbst Hfuel Hlen. split; [|split].
  - intros A func data h0. now apply vad_iterator_walk.
  - intros seen h0. rewrite (vad_iterator_walk P vmi note_node t) by assumption.
    apply walk_note_node.
  - rewrite (vad_iterator_walk P vmi (handle_node P MAX fresh) t) by assumption.
    destruct (walk_handle_node P vmi MAX fresh t dump h Hlen)
      as (d & h' & new & Hrun & _ & Hseg & Hsub).
    exists d, h', new. repeat split; try assumption.
    eapply sublist_strongly_sorted; [exact Hsub|].
    apply is_bst_sorted, Hbst.
Qed.

Lemma vad_iterator_inorder_ascending_witness :
  exists dump' h',
    vad_iterator Sample.profile 2 Sample.guest 0x1000 (handle_node Sample.profile 4 Sample.junk)
      (Sample.empty_job 4) Sample.quiet = Done (dump', h')
    /\ StronglySorted Z.lt (map base_va (job_segments dump')).
Proof.
  destruct (vad_iterator_inorder_ascending Sample.profile 4 Sample.junk Sample.guest
              Sample.tree 0x1000 2 (Sample.empty_job 4) Sample.quiet)
    as (_ & _ & d & h & new & Hrun & Hseg & _ & Hsorted).
  - vm_compute. reflexivity.
  - vm_compute. reflexivity.
  - simpl. lia.
  - reflexivity.
  - exists d, h. split; [exact Hrun|]. rewrite Hseg. exact Hsorted.
Defined.

(** * Part III: further properties of the dumper *)

(** ** extract_field_value as a bit slice *)

(** X1: for a bit range [s..e] inside the word and narrower than the word,
    extract_field_value returns bits [s..e] of [packed] as a number,
    [(packed / 2^s) mod 2^(e-s+1)]: the result is below [2^(e-s+1)], and
    bit [i] of it is bit [s+i] of [packed] for [i <= e-s] and clear above,
    so no bit outside the range has any influence. *)
Theorem extract_field_value_is_bit_slice (packed s e : Z) :
  field_fits s e 63 ->
  extract_field_value packed s e = bit_slice packed s e
  /\ 0 <= extract_field_value packed s e < 2 ^ (e - s + 1)
  /\ forall i, 0 <= i ->
       Z.testbit (extract_field_value packed s e) i
       = (i <=? e - s) && Z.testbit packed (s + i).
Proof.
  intros (Hse & He & Hw).
  assert (H64 : 63 < 2 ^ 64) by reflexivity.
  assert (Hrun : extract_field_value packed s e = bit_slice packed s e).
  { unfold extract_field_value, bit_slice.
    rewrite u64_shr_small by lia.
    unfold U64.sub at 2. rewrite (u64_wrap_small (e - s)) by lia.
    unfold U64.add. rewrite (u64_wrap_small (e - s + 1)) by lia.
    rewrite field_mask_ones by lia.
    apply Z.land_ones. lia. }
  rewrite Hrun. split; [reflexivity|]. split.
  - unfold bit_slice. apply Z.mod_pos_bound, Z.pow_pos_nonneg; lia.
  - intros i Hi. unfold bit_slice.
    rewrite <- Z.shiftr_div_pow2 by lia.
    destruct (Z.leb_spec i (e - s)) as [Hin|Hout].
    + rewrite Z.mod_pow2_bits_low by lia.
      rewrite Z.shiftr_spec by lia. simpl. f_equal. lia.
    + rewrite Z.mod_pow2_bits_high by lia. reflexivity.
Qed.

Lemma extract_field_value_is_bit_slice_witness :
  extract_field_value 0x8610000000000000 56 60 = bit_slice 0x8610000000000000 56 60
  /\ 0 <= extract_field_value 0x8610000000000000 56 60 < 2 ^ (60 - 56 + 1).
Proof.
  destruct (extract_field_value_is_bit_slice 0x8610000000000000 56 60) as (H1 & H2 & _).
  - unfold field_fits. lia.
  - split; [exact H1|exact H2].
Defined.

(** ** The flag fields of a node *)

Lemma extract_field_value_zero s e : extract_field_value 0 s e = 0.
Proof.
  unfold extract_field_value, U64.shr. rewrite Z.shiftr_0_l. apply Z.land_0_l.
Qed.

Section NodeFlags.

Variable P : rekall_t.
Variable vmi : vmi_instance_t.

Lemma flags_word_range node : 0 <= flags_word P vmi node < 2 ^ 64.
Proof.
  unfold flags_word, vmi_read_64_va.
  destruct (read_64_va vmi (U64.add node (mmvad_flags P)) 0); simpl.
  - apply u64_wrap_range.
  - split; [lia|reflexivity].
Qed.

Lemma get_node_fields_unfold node :
  get_node_vadtype P vmi node
  = extract_field_value (flags_word P vmi node) (flags_vadtype_start P) (flags_vadtype_end P)
    mod 2 ^ 32
  /\ get_node_isprivate P vmi node
     = extract_field_value (flags_word P vmi node) (flags_isprivate_start P)
         (flags_isprivate_end P) mod 2 ^ 8
  /\ get_node_protection P vmi node
     = extract_field_value (flags_word P vmi node) (flags_protection_start P)
         (flags_protection_end P) mod 2 ^ 8.
Proof.
  unfold get_node_vadtype, get_node_isprivate, get_node_protection, flags_word.
  destruct (vmi_read_64_va vmi (U64.add node (mmvad_flags P)) 0 0) as [st flags].
  repeat split.
Qed.

(** X2: when the flags word of a node cannot be read, get_node_vadtype,
    get_node_isprivate and get_node_protection all store 0, whatever bit
    ranges the profile names: the local [flags] keeps its initial 0. *)
Theorem get_node_fields_of_unreadable_flags node :
  read_64_va vmi (U64.add node (mmvad_flags P)) 0 = None ->
  get_node_vadtype P vmi node = 0
  /\ get_node_isprivate P vmi node = 0
  /\ get_node_protection P vmi node = 0.
Proof.
  intros Hread.
  destruct (get_node_fields_unfold node) as (-> & -> & ->).
  assert (Hflags : flags_word P vmi node = 0)
    by (unfold flags_word, vmi_read_64_va; now rewrite Hread).
  rewrite Hflags, !extract_field_value_zero. repeat split.
Qed.

(** X3: for a profile whose bit ranges lie in the word, with the VAD type
    at most 32 bits wide and the is-private and protection fields at most
    8, each of the three functions stores exactly its bit range of the
    flags word of the node: the cast to the C type of the output loses
    nothing. *)
Theorem get_node_fields_are_bit_slices node :
  field_fits (flags_vadtype_start P) (flags_vadtype_end P) 32 ->
  field_fits (flags_isprivate_start P) (flags_isprivate_end P) 8 ->
  field_fits (flags_protection_start P) (flags_protection_end P) 8 ->
  get_node_vadtype P vmi node
  = bit_slice (flags_word P vmi node) (flags_vadtype_start P) (flags_vadtype_end P)
  /\ get_node_isprivate P vmi node
     = bit_slice (flags_word P vmi node) (flags_isprivate_start P) (flags_isprivate_end P)
  /\ get_node_protection P vmi node
     = bit_slice (flags_word P vmi node) (flags_protection_start P)
         (flags_protection_end P).
Proof.
  intros Hv Hi Hp.
  destruct (get_node_fields_unfold node) as (-> & -> & ->).
  assert (Hcast : forall s e w, field_fits s e w -> 0 < w <= 63 ->
            extract_field_value (flags_word P vmi node) s e mod 2 ^ w
            = bit_slice (flags_word P vmi node) s e).
  { intros s e w (Hse & He & Hw) Hw63.
    destruct (extract_field_value_is_bit_slice (flags_word P vmi node) s e)
      as (Heq & Hrange & _); [unfold field_fits; lia|].
    rewrite <- Heq. apply Z.mod_small. split; [lia|].
    apply Z.lt_le_trans with (2 ^ (e - s + 1)); [lia|].
    apply Z.pow_le_mono_r; lia. }
  rewrite (Hcast _ _ 32 Hv), (Hcast _ _ 8 Hi), (Hcast _ _ 8 Hp) by lia.
  repeat split.
Qed.

End NodeFlags.

Lemma get_node_fields_of_unreadable_flags_witness :
  get_node_vadtype Sample.profile Sample.guest 0x9000 = 0
  /\ get_node_isprivate Sample.profile Sample.guest 0x9000 = 0
  /\ get_node_protection Sample.profile Sample.guest 0x9000 = 0.
Proof.
  apply (get_node_fields_of_unreadable_flags Sample.profile Sample.guest 0x9000).
  reflexivity.
Defined.

Lemma get_node_fields_are_bit_slices_witness :
  get_node_vadtype Sample.profile Sample.guest 0x1000 = 1
  /\ get_node_isprivate Sample.profile Sample.guest 0x1000 = 1
  /\ get_node_protection Sample.profile Sample.guest 0x1000 = 6.
Proof.
  apply (get_node_fields_are_bit_slices Sample.profile Sample.guest 0x1000);
    unfold field_fits; simpl; lia.
Defined.

(** ** handle_node: what it leaves alone *)

Lemma stderr_grows_refl h : stderr_grows h h.
Proof. repeat split. exists []. now rewrite app_nil_r. Qed.

Lemma stderr_grows_trans h1 h2 h3 :
  stderr_grows h1 h2 -> stderr_grows h2 h3 -> stderr_grows h1 h3.
Proof.
  intros (Ho1 & Hd1 & Hv1 & l1 & He1) (Ho2 & Hd2 & Hv2 & l2 & He2).
  repeat split; try congruence.
  exists (l1 ++ l2). rewrite He2, He1. now rewrite app_assoc.
Qed.

Lemma stderr_grows_fprintf fmt a h : stderr_grows h (fprintf_stderr fmt a h).
Proof. repeat split. now eexists. Qed.

Lemma stderr_grows_report_child vmi off node msg h :
  stderr_grows h (report_child vmi off node msg h).
Proof.
  unfold report_child. destruct (read_addr_va vmi (U64.add node off) 0).
  - apply stderr_grows_refl.
  - apply stderr_grows_fprintf.
Qed.

(** X4: the job handle_node returns does not depend on what the freshly
    allocated [vad_seg_t] contained: every field of the stored segment is
    assigned before the call returns. *)
Theorem handle_node_ignores_fresh_memory (P : rekall_t) (MAX : nat)
  (fresh1 fresh2 : vad_seg_t) (vmi : vmi_instance_t) (node : Z) (dump : dump_layer_t)
  (h : host_t) :
  handle_node P MAX fresh1 vmi node dump h = handle_node P MAX fresh2 vmi node dump h.
Proof. now rewrite !handle_node_unfold. Qed.

(** X5: a call of handle_node that returns keeps [pid] and [rip] of the
    job, the length of the array and every slot other than the one
    [segment_count] points at; [segment_count] stays or grows by one; and
    outside the job it adds lines to stderr at most (stdout and the two
    queues are as before). *)
Theorem handle_node_frame (P : rekall_t) (MAX : nat) (fresh : vad_seg_t)
  (vmi : vmi_instance_t) (node : Z) (dump dump' : dump_layer_t) (h h' : host_t) :
  handle_node P MAX fresh vmi node dump h = Done (dump', h') ->
  pid dump' = pid dump
  /\ rip dump' = rip dump
  /\ length (segments dump') = length (segments dump)
  /\ (forall j, j <> segment_count dump -> segments dump' !! j = segments dump !! j)
  /\ (segment_count dump' = segment_count dump
      \/ segment_count dump' = S (segment_count dump))
  /\ stderr_grows h h'.
Proof.
  rewrite handle_node_unfold. intros Hrun.
  destruct (MAX <=? segment_count dump)%nat.
  { inversion Hrun; subst.
    refine (conj eq_refl (conj eq_refl (conj eq_refl (conj _ (conj _ _))))).
    - reflexivity.
    - now left.
    - apply stderr_grows_fprintf. }
  destruct (node_skipped P vmi node).
  { inversion Hrun; subst.
    refine (conj eq_refl (conj eq_refl (conj eq_refl (conj _ (conj _ _))))).
    - reflexivity.
    - now left.
    - apply stderr_grows_refl. }
  unfold store_segment in Hrun.
  destruct (segment_count dump <? length (segments dump))%nat; simpl in Hrun;
    [|discriminate Hrun].
  inversion Hrun; subst; simpl.
  refine (conj eq_refl (conj eq_refl (conj _ (conj _ (conj _ _))))).
  - apply length_insert.
  - intros j Hj. apply list_lookup_insert_ne. congruence.
  - right. lia.
  - apply stderr_grows_refl.
Qed.

Lemma handle_node_frame_witness :
  pid Sample.root_job = pid (Sample.empty_job 4)
  /\ rip Sample.root_job = rip (Sample.empty_job 4)
  /\ length (segments Sample.root_job) = length (segments (Sample.empty_job 4)).
Proof.
  destruct (handle_node_frame Sample.profile 4 Sample.junk Sample.guest 0x1000
              (Sample.empty_job 4) Sample.root_job Sample.quiet Sample.quiet)
    as (Hpid & Hrip & Hlen & _).
  - vm_compute. reflexivity.
  - split; [exact Hpid|]. split; [exact Hrip|exact Hlen].
Defined.

(** ** The job a walk builds *)

(** Split the conjunctions that are written out in the goal. *)
Ltac conj_split := repeat match goal with |- _ /\ _ => split end.

Section WalkJob.

Variable P : rekall_t.
Variable vmi : vmi_instance_t.
Variable MAX : nat.
Variable fresh : vad_seg_t.

Lemma kept_nodes_app a b : kept_nodes P vmi (a ++ b) = kept_nodes P vmi a ++ kept_nodes P vmi b.
Proof. apply List.filter_app. Qed.

Lemma kept_nodes_cons n ns :
  kept_nodes P vmi (n :: ns)
  = if node_skipped P vmi n then kept_nodes P vmi ns else n :: kept_nodes P vmi ns.
Proof. unfold kept_nodes. simpl. now destruct (node_skipped P vmi n). Qed.

(** The walk with handle_node, in closed form: the count, the segments,
    and the frame. *)
Lemma walk_handle_node_closed t : forall dump h,
  length (segments dump) = MAX -> (segment_count dump <= MAX)%nat ->
  exists dump' h',
    walk P vmi (handle_node P MAX fresh) t dump h = Done (dump', h')
    /\ length (segments dump') = MAX
    /\ pid dump' = pid dump /\ rip dump' = rip dump
    /\ segment_count dump'
       = Nat.min MAX (segment_count dump + length (kept_nodes P vmi (inorder t)))
    /\ job_segments dump'
       = job_segments dump
         ++ take (MAX - segment_count dump)
              (map (node_segment P vmi (pid dump)) (kept_nodes P vmi (inorder t)))
    /\ stderr_grows h h'.
Proof.
  induction t as [|l IHl n r IHr]; intros dump h Hlen Hcnt.
  - exists dump, h. simpl. rewrite take_nil, app_nil_r, Nat.add_0_r.
    conj_split; auto using stderr_grows_refl. lia.
  - cbn [walk inorder]. rewrite kept_nodes_app, kept_nodes_cons.
    set (h0 := report_child vmi (mmvad_leftchild P) n
                 "vad_iterator: Left node could not be read" h).
    destruct (IHl dump h0 Hlen Hcnt)
      as (d1 & h1 & -> & Hlen1 & Hpid1 & Hrip1 & Hcnt1 & Hseg1 & Hh1).
    simpl.
    assert (Hh01 : stderr_grows h h1)
      by (eapply stderr_grows_trans; [apply stderr_grows_report_child|exact Hh1]).
    destruct (handle_node_step P MAX fresh vmi n d1 h1 Hlen1)
      as (d2 & h2 & -> & Hlen2 & Hcase).
    simpl.
    set (h3 := report_child vmi (mmvad_rightchild P) n
                 "vad_iterator: Right node could not be read" h2).
    assert (Hcnt2 : (segment_count d2 <= MAX)%nat).
    { destruct Hcase as [(_ & -> & _)|[(_ & _ & -> & _)|(Hlt & _ & _ & ->)]]; simpl; lia. }
    destruct (IHr d2 h3 Hlen2 Hcnt2)
      as (d3 & h4 & -> & Hlen3 & Hpid3 & Hrip3 & Hcnt3 & Hseg3 & Hh3).
    exists d3, h4. split; [reflexivity|]. split; [exact Hlen3|].
    set (Kl := kept_nodes P vmi (inorder l)) in *.
    set (Kr := kept_nodes P vmi (inorder r)) in *.
    rewrite !map_app, !length_app.
    destruct Hcase as [(Hcap & -> & ->)|[(Hlt & Hskip & -> & ->)|(Hlt & Hskip & -> & ->)]].
    + (* the job was full when the node was visited *)
      assert (Hfull : (MAX - segment_count dump <= length Kl)%nat) by lia.
      rewrite Hpid3, Hrip3, Hcnt3, Hseg3, Hseg1.
      replace (MAX - segment_count d1)%nat with 0%nat by lia.
      rewrite take_0, app_nil_r.
      rewrite take_app_le by (rewrite length_map; exact Hfull).
      conj_split; try assumption; try reflexivity.
      * destruct (node_skipped P vmi n); simpl; lia.
      * eapply stderr_grows_trans; [exact Hh01|].
        eapply stderr_grows_trans; [apply stderr_grows_fprintf|].
        eapply stderr_grows_trans; [apply stderr_grows_report_child|exact Hh3].
    + (* the node is one handle_node passes over *)
      rewrite Hskip. simpl.
      rewrite Hpid3, Hrip3, Hcnt3, Hseg3, Hseg1, Hpid1, Hcnt1.
      rewrite take_app, length_map, <- app_assoc.
      conj_split; try assumption; try reflexivity; try lia.
      * do 2 f_equal. f_equal. lia.
      * eapply stderr_grows_trans; [exact Hh01|].
        eapply stderr_grows_trans; [apply stderr_grows_report_child|exact Hh3].
    + (* the node was appended *)
      rewrite Hskip. simpl.
      rewrite Hseg3, job_segments_store by lia.
      simpl in Hpid3, Hrip3, Hcnt3 |- *.
      rewrite Hpid3, Hrip3, Hcnt3, Hseg1, Hpid1, Hcnt1.
      assert (Hroom : (length Kl < MAX - segment_count dump)%nat) by lia.
      rewrite take_app, length_map.
      rewrite (take_ge (map _ Kl)) by (rewrite length_map; lia).
      replace (MAX - segment_count dump - length Kl)%nat
        with (S (MAX - segment_count dump - length Kl - 1)) by lia.
      cbn [take]. rewrite <- !app_assoc. simpl.
      conj_split; try assumption; try reflexivity; try lia.
      * do 3 f_equal. f_equal. lia.
      * eapply stderr_grows_trans; [exact Hh01|].
        eapply stderr_grows_trans; [apply stderr_grows_report_child|exact Hh3].
Qed.

End WalkJob.

(** X6: on a VAD tree in guest memory, with fuel for its height, and a job
    whose array has [MAX] slots of which at most [MAX] are counted,
    vad_iterator with handle_node returns the job extended by the segments
    of the nodes handle_node does not pass over, taken in in-order, as many
    as still fit below the cap: [segment_count] becomes the smaller of
    [MAX] and the old count plus the number of such nodes.  [pid] and
    [rip] stay, and outside the job only stderr may have grown. *)
Theorem vad_iterator_fills_job_up_to_cap (P : rekall_t) (MAX : nat) (fresh : vad_seg_t)
  (vmi : vmi_instance_t) (t : vad_tree) (root : Z) (fuel : nat)
  (dump : dump_layer_t) (h : host_t) :
  vad_tree_at P vmi t root = true ->
  (height t <= fuel)%nat ->
  length (segments dump) = MAX ->
  (segment_count dump <= MAX)%nat ->
  exists dump' h',
    vad_iterator P fuel vmi root (handle_node P MAX fresh) dump h = Done (dump', h')
    /\ segment_count dump'
       = Nat.min MAX (segment_count dump + length (kept_nodes P vmi (inorder t)))
    /\ job_segments dump'
       = job_segments dump
         ++ take (MAX - segment_count dump)
              (map (node_segment P vmi (pid dump)) (kept_nodes P vmi (inorder t)))
    /\ pid dump' = pid dump /\ rip dump' = rip dump
    /\ stderr_grows h h'.
Proof.
  intros Hshape Hfuel Hlen Hcnt.
  rewrite (vad_iterator_walk P vmi (handle_node P MAX fresh) t) by assumption.
  destruct (walk_handle_node_closed P vmi MAX fresh t dump h Hlen Hcnt)
    as (d & h' & Hrun & _ & Hpid & Hrip & Hcount & Hseg & Hh).
  exists d, h'. auto 10.
Qed.

Lemma vad_iterator_fills_job_up_to_cap_witness :
  exists dump' h',
    vad_iterator Sample.profile 2 Sample.guest 0x1000 (handle_node Sample.profile 2 Sample.junk)
      (Sample.empty_job 2) Sample.quiet = Done (dump', h')
    /\ segment_count dump' = 2%nat
    /\ map base_va (job_segments dump') = [0x10000; 0x20000].
Proof.
  destruct (vad_iterator_fills_job_up_to_cap Sample.profile 2 Sample.junk Sample.guest
              Sample.tree 0x1000 2 (Sample.empty_job 2) Sample.quiet)
    as (d & h & Hrun & Hcount & Hseg & _).
  - vm_compute. reflexivity.
  - simpl. lia.
  - reflexivity.
  - simpl. lia.
  - exists d, h. split; [exact Hrun|]. split; [exact Hcount|].
    rewrite Hseg. vm_compute. reflexivity.
Defined.

(** X7: vad_dump_process, on a VAD tree below the VAD root of the process
    and with fuel for its height, queues exactly one job and changes
    nothing else but stderr: the job carries the [pid] passed in and the
    [rip] of the event, and holds the segments of the first [MAX] nodes,
    in in-order, that handle_node does not pass over. *)
Theorem vad_dump_process_queues_one_job (P : rekall_t) (MAX : nat) (fresh : vad_seg_t)
  (vmi : vmi_instance_t) (event : vmi_event_t) (pid_ page_cat : Z) (h : host_t)
  (t : vad_tree) (fuel : nat) :
  vad_tree_at P vmi t
    (vmi_get_eprocess_vadroot vmi (windows_find_eprocess_pgd vmi (x86_regs_cr3 event)))
  = true ->
  (height t <= fuel)%nat ->
  exists dump h',
    vad_dump_process P MAX fresh fuel vmi event pid_ page_cat h = Done h'
    /\ vad_queue h' = vad_queue h ++ [dump]
    /\ dump_queue h' = dump_queue h
    /\ stdout h' = stdout h
    /\ pid dump = pid_
    /\ rip dump = x86_regs_rip event
    /\ segment_count dump = Nat.min MAX (length (kept_nodes P vmi (inorder t)))
    /\ job_segments dump
       = take MAX (map (node_segment P vmi pid_) (kept_nodes P vmi (inorder t))).
Proof.
  intros Hshape Hfuel. unfold vad_dump_process.
  rewrite (vad_iterator_walk P vmi (handle_node P MAX fresh) t) by assumption.
  set (job := {| pid := pid_; rip := x86_regs_rip event; segment_count := 0;
                 segments := replicate MAX None |}).
  assert (Hlen : length (segments job) = MAX) by apply length_replicate.
  destruct (walk_handle_node_closed P vmi MAX fresh t job h Hlen (Nat.le_0_l _))
    as (d & h1 & -> & _ & Hpid & Hrip & Hcount & Hseg & (Hout & Hdq & Hvq & _)).
  simpl. exists d, (queue_vads_to_dump d h1).
  split; [reflexivity|]. simpl. rewrite Hvq, Hdq, Hout.
  simpl in Hcount, Hseg. rewrite Nat.sub_0_r in Hseg.
  conj_split; try reflexivity; assumption.
Qed.

Lemma vad_dump_process_queues_one_job_witness :
  exists dump h',
    vad_dump_process Sample.profile 4 Sample.junk 2 Sample.guest Sample.event 1234 0
      Sample.quiet = Done h'
    /\ vad_queue h' = [dump]
    /\ pid dump = 1234
    /\ segment_count dump = 3%nat.
Proof.
  destruct (vad_dump_process_queues_one_job Sample.profile 4 Sample.junk Sample.guest
              Sample.event 1234 0 Sample.quiet Sample.tree 2)
    as (d & h & Hrun & Hq & _ & _ & Hpid & _ & Hcount & _).
  - vm_compute. reflexivity.
  - simpl. lia.
  - exists d, h. split; [exact Hrun|]. split; [exact Hq|]. split; [exact Hpid|exact Hcount].
Defined.

(** ** Search-tree order on page numbers *)

(** X8: a VAD tree that is a strict search tree on the starting page
    numbers of its nodes, all of them below [2^52] (so that the shift by 12
    stays inside the 64-bit address), is a strict search tree on the base
    addresses handle_node computes. *)
Theorem is_bst_on_vpn_is_bst_on_base (P : rekall_t) (vmi : vmi_instance_t) (t : vad_tree) :
  is_bst (start_vpn P vmi) t = true ->
  Forall (fun n => start_vpn P vmi n < 2 ^ 52) (inorder t) ->
  is_bst (vad_base P vmi) t = true.
Proof.
  assert (Hmono : forall a b, start_vpn P vmi a < start_vpn P vmi b ->
            start_vpn P vmi b < 2 ^ 52 -> vad_base P vmi a < vad_base P vmi b).
  { intros a b Hab Hb. apply u64_shl_12_lt; [|exact Hb].
    split; [apply pointer_field_range|exact Hab]. }
  induction t as [|l IHl n r IHr]; simpl; intros Hbst Hcanon; [reflexivity|].
  rewrite !andb_true_iff in Hbst. destruct Hbst as [[[Hl Hr] Hbl] Hbr].
  apply Forall_app in Hcanon as [Hcl Hcr].
  apply Forall_cons in Hcr as [Hcn Hcr].
  rewrite forallb_forall in Hl, Hr. rewrite Forall_forall in Hcr.
  rewrite !andb_true_iff. repeat split.
  - apply forallb_forall. intros m Hm. apply Z.ltb_lt, Hmono; [|exact Hcn].
    apply Z.ltb_lt, Hl, Hm.
  - apply forallb_forall. intros m Hm. apply Z.ltb_lt, Hmono.
    + apply Z.ltb_lt, Hr, Hm.
    + apply Hcr. now apply list_elem_of_In.
  - apply IHl; assumption.
  - apply IHr; [assumption|]. now apply Forall_forall.
Qed.

Lemma is_bst_on_vpn_is_bst_on_base_witness :
  is_bst (vad_base Sample.profile Sample.guest) Sample.tree = true.
Proof.
  apply (is_bst_on_vpn_is_bst_on_base Sample.profile Sample.guest Sample.tree).
  - vm_compute. reflexivity.
  - repeat constructor.
Defined.

(** ** process_layer: the paths that queue nothing *)

(** X9: process_layer queues a dump only for a segment of nonzero size
    whose buffer could be allocated.  When no segment is found (size 0) or
    the allocation fails, it adds exactly one line to stderr and leaves
    stdout and the dump queue as they were; otherwise it leaves stderr as
    it was and prints two lines on stdout.  It never touches the queue of
    VAD jobs. *)
Theorem process_layer_failure_paths (malloc_ok : Z -> bool) (vmi : vmi_instance_t)
  (event : vmi_event_t) (pid_ page_cat : Z) (h : host_t) :
  let vma := vmi_current_find_segment vmi event (mem_event_gla event) in
  let h' := process_layer malloc_ok vmi event pid_ page_cat h in
  vad_queue h' = vad_queue h
  /\ (MemSeg.size vma = 0 \/ malloc_ok (MemSeg.size vma) = false ->
      dump_queue h' = dump_queue h /\ stdout h' = stdout h
      /\ exists line, stderr h' = stderr h ++ [line])
  /\ (MemSeg.size vma <> 0 -> malloc_ok (MemSeg.size vma) = true ->
      stderr h' = stderr h
      /\ exists line1 line2, stdout h' = stdout h ++ [line1; line2]).
Proof.
  intros vma h'. unfold h', process_layer. fold vma.
  destruct (Z.eqb_spec (MemSeg.size vma) 0) as [Hz|Hnz].
  { split; [reflexivity|]. split; [|intros Hc; contradiction].
    intros _. split; [reflexivity|]. split; [reflexivity|]. now eexists. }
  destruct (malloc_ok (MemSeg.size vma)) eqn:Hm; simpl.
  - unfold vmi_read_va.
    destruct (read_va vmi (MemSeg.base_va vma) pid_ (MemSeg.size vma)) as [st bs].
    simpl. split; [reflexivity|]. split.
    + intros [Hc|Hc]; [contradiction|discriminate Hc].
    + intros _ _. split; [reflexivity|]. rewrite <- app_assoc. now eexists _, _.
  - split; [reflexivity|]. split; [|intros _ Hc; discriminate Hc].
    intros _. split; [reflexivity|]. split; [reflexivity|]. now eexists.
Qed.

Lemma process_layer_failure_paths_witness :
  dump_queue (process_layer (fun _ => false) Sample.guest Sample.event 1234 0 Sample.quiet)
  = []
  /\ length (stderr (process_layer (fun _ => false) Sample.guest Sample.event 1234 0
                       Sample.quiet)) = 1%nat.
Proof.
  destruct (process_layer_failure_paths (fun _ => false) Sample.guest Sample.event 1234 0
              Sample.quiet) as (_ & Hfail & _).
  destruct Hfail as (Hq & _ & line & Herr); [right; reflexivity|].
  split; [exact Hq|]. rewrite Herr. reflexivity.
Defined.

(** ** A node that is its own child *)

(** X10: when the left or the right child pointer of a node points back at
    the node itself, vad_iterator never returns from that node: whatever
    the visitor does and however much fuel the model is given, the result
    is not [Done]. *)
Theorem vad_iterator_self_loop_never_returns {A : Type} (P : rekall_t)
  (vmi : vmi_instance_t) (node : Z) (func : traverse_func A) :
  node <> 0 ->
  left_child P vmi node = node \/ right_child P vmi node = node ->
  forall fuel data h r, vad_iterator P fuel vmi node func data h <> Done r.
Proof.
  intros Hnz Hloop fuel.
  induction fuel as [|fuel IH]; intros data h r; [discriminate|].
  rewrite vad_iterator_unfold. cbv zeta.
  apply Z.eqb_neq in Hnz.
  destruct Hloop as [Hl|Hr].
  - rewrite Hl, Hnz.
    destruct (vad_iterator P fuel vmi node func data _) as [r1|f] eqn:Hrec;
      [exfalso; exact (IH _ _ _ Hrec)|discriminate].
  - rewrite Hr, Hnz.
    destruct (if left_child P vmi node =? 0 then _ else _) as [[d1 h1]|f]; simpl;
      [|discriminate].
    destruct (func vmi node d1 h1) as [[d2 h2]|f]; simpl; [|discriminate].
    apply IH.
Qed.

(** ** capture_cmd and write_file *)

Section FilesFacts.

Import Files.

Variable L : libc_t.

Lemma open_pipes_app a b : open_pipes (a ++ b) = open_pipes a + open_pipes b.
Proof.
  induction a as [|c a IH]; simpl; [reflexivity|].
  destruct c as [? []| |? []| |? []| | | |]; simpl; lia.
Qed.

Lemma open_files_app a b : open_files (a ++ b) = open_files a + open_files b.
Proof.
  induction a as [|c a IH]; simpl; [reflexivity|].
  destruct c as [? []| |? []| |? []| | | |]; simpl; lia.
Qed.

Lemma live_blocks_app a b : live_blocks (a ++ b) = live_blocks a + live_blocks b.
Proof.
  induction a as [|c a IH]; simpl; [reflexivity|].
  destruct c as [? []| |? []| |? []| | | |]; simpl; lia.
Qed.

(** The copy loop takes and gives back nothing, never writes more than it
    read, and is silent only if it wrote all it read. *)
Lemma copy_loop_facts fn blocks : forall file0 file1 errs1 calls1,
  copy_loop L fn blocks file0 = (file1, errs1, calls1) ->
  open_pipes calls1 = 0 /\ open_files calls1 = 0 /\ live_blocks calls1 = 0
  /\ (exists added, file1 = file0 ++ added
                    /\ (length added <= length (delivered blocks))%nat
                    /\ (errs1 = [] -> added = delivered blocks)).
Proof.
  induction blocks as [|block blocks IH]; intros file0 file1 errs1 calls1 Hrun;
    simpl in Hrun.
  - inversion Hrun; subst. simpl. conj_split; try reflexivity.
    exists []. rewrite app_nil_r. auto.
  - simpl. destruct (Nat.eqb_spec (length block) 0) as [Hz|Hnz].
    + inversion Hrun; subst. simpl. conj_split; try reflexivity.
      exists []. rewrite app_nil_r. auto.
    + destruct (copy_loop L fn blocks (file0 ++ take (fwrite L file0 block) block))
        as [[f2 e2] c2] eqn:Hrec.
      inversion Hrun; subst. clear Hrun.
      destruct (IH _ _ _ _ Hrec) as (Hp & Hf & Hb & added & -> & Hlen & Hquiet).
      simpl. conj_split; try assumption.
      exists (take (fwrite L file0 block) block ++ added).
      rewrite app_assoc. split; [reflexivity|]. split.
      * rewrite !length_app, length_take. lia.
      * intros Herrs. apply app_eq_nil in Herrs as [Hw He].
        destruct (Nat.eqb_spec (fwrite L file0 block) (length block)) as [Heq|Hne];
          [|discriminate Hw].
        rewrite Heq, firstn_all, (Hquiet He). reflexivity.
Qed.

Lemma copy_loop_complete fn blocks :
  (forall file_ block, fwrite L file_ block = length block) ->
  forall file0, exists calls1,
    copy_loop L fn blocks file0 = (file0 ++ delivered blocks, [], calls1).
Proof.
  intros Hfull. induction blocks as [|block blocks IH]; intros file0; simpl.
  - rewrite app_nil_r. now eexists.
  - destruct (length block =? 0)%nat; [rewrite app_nil_r; now eexists|].
    rewrite Hfull, Nat.eqb_refl, firstn_all.
    destruct (IH (file0 ++ block)) as [c ->].
    rewrite <- app_assoc. now eexists.
Qed.

Lemma discard_loop_neutral values :
  open_pipes (discard_loop values) = 0 /\ open_files (discard_loop values) = 0
  /\ live_blocks (discard_loop values) = 0.
Proof.
  induction values as [|v values IH]; simpl; [auto|].
  destruct (char_of_int v =? EOF); simpl; auto.
Qed.

Lemma char_of_int_eof v : (char_of_int v =? EOF) = (v mod 256 =? 255).
Proof.
  unfold char_of_int, EOF.
  assert (H : 0 <= v mod 256 < 256) by (apply Z.mod_pos_bound; lia).
  destruct (Z.ltb_spec (v mod 256) 128);
    destruct (Z.eqb_spec (v mod 256) 255); lia.
Qed.

(** X11: when the pipe and the file open, the buffer is allocated and
    every [fwrite] writes the whole block, capture_cmd returns 0, prints
    nothing, and the file holds exactly the bytes the pipe delivered
    before the first empty read, however they were cut into blocks. *)
Theorem capture_cmd_copies_pipe (PAGE_SIZE : Z) (cmd fn : string) (pipe : stream_t) :
  popen L cmd = Some pipe ->
  fopen L fn = true ->
  malloc_ok L PAGE_SIZE = true ->
  (forall file_ block, fwrite L file_ block = length block) ->
  let r := capture_cmd L PAGE_SIZE cmd (Some fn) in
  rc r = 0 /\ file r = delivered (fread_blocks pipe) /\ errs r = [].
Proof.
  intros Hp Hf Hm Hw. unfold capture_cmd. rewrite Hp, Hf, Hm. simpl.
  destruct (copy_loop_complete fn (fread_blocks pipe) Hw []) as [c ->].
  simpl. auto.
Qed.

(** X12: on every path capture_cmd closes the pipe and the file it opened
    and frees the buffer it allocated.  It returns -1 exactly when the
    command cannot be started or, a file name being given, the file cannot
    be opened or the buffer cannot be allocated, and then nothing reaches
    the file and one line is printed; otherwise it returns 0. *)
Theorem capture_cmd_releases_what_it_takes (PAGE_SIZE : Z) (cmd : string)
  (fn : option string) :
  let r := capture_cmd L PAGE_SIZE cmd fn in
  open_pipes (calls r) = 0 /\ open_files (calls r) = 0 /\ live_blocks (calls r) = 0
  /\ (rc r = 0 \/ rc r = -1)
  /\ (rc r = -1 <->
      popen L cmd = None
      \/ exists f, fn = Some f /\ (fopen L f = false \/ malloc_ok L PAGE_SIZE = false))
  /\ (rc r = -1 -> file r = [] /\ exists line_, errs r = [line_]).
Proof.
  unfold capture_cmd.
  destruct (popen L cmd) as [pipe|].
  2:{ simpl. conj_split; auto.
      - split; auto.
      - intros _. eauto. }
  destruct fn as [f|].
  2:{ simpl. destruct (discard_loop_neutral (fgetc_values pipe)) as (Hp & Hf & Hb).
      rewrite open_pipes_app, open_files_app, live_blocks_app, Hp, Hf, Hb. simpl.
      conj_split; auto.
      - split; [discriminate|].
        intros [Hc|(f & Hc & _)]; discriminate Hc.
      - discriminate. }
  destruct (fopen L f) eqn:Hfo; simpl.
  2:{ conj_split; auto.
      - split; [|reflexivity]. intros _. right. eauto.
      - intros _. eauto. }
  destruct (malloc_ok L PAGE_SIZE) eqn:Hm; simpl.
  2:{ conj_split; auto.
      - split; [|reflexivity]. intros _. right. eauto.
      - intros _. eauto. }
  destruct (copy_loop L f (fread_blocks pipe) []) as [[f1 e1] c1] eqn:Hloop.
  destruct (copy_loop_facts _ _ _ _ _ _ Hloop) as (Hp & Hf & Hb & _).
  simpl. rewrite open_pipes_app, open_files_app, live_blocks_app, Hp, Hf, Hb. simpl.
  conj_split; auto.
  - split; [discriminate|].
    intros [Hc|(f' & Hc & [Hc'|Hc'])]; [discriminate Hc| |congruence].
    inversion Hc; subst. congruence.
  - discriminate.
Qed.

(** X13: a short write does not change what capture_cmd returns.  Once the
    pipe and the file are open and the buffer is allocated it returns 0
    whatever [fwrite] does; the file never holds more than the pipe
    delivered; and if no warning was printed, the file holds all of it. *)
Theorem capture_cmd_short_writes (PAGE_SIZE : Z) (cmd fn : string) (pipe : stream_t) :
  popen L cmd = Some pipe ->
  fopen L fn = true ->
  malloc_ok L PAGE_SIZE = true ->
  let r := capture_cmd L PAGE_SIZE cmd (Some fn) in
  rc r = 0
  /\ (length (file r) <= length (delivered (fread_blocks pipe)))%nat
  /\ (errs r = [] -> file r = delivered (fread_blocks pipe)).
Proof.
  intros Hp Hf Hm. unfold capture_cmd. rewrite Hp, Hf, Hm. simpl.
  destruct (copy_loop L fn (fread_blocks pipe) []) as [[f1 e1] c1] eqn:Hloop.
  destruct (copy_loop_facts _ _ _ _ _ _ Hloop) as (_ & _ & _ & added & -> & Hlen & Hq).
  simpl. auto.
Qed.

(** X14: without a file name, capture_cmd reads the pipe one character at
    a time and stops at the end of the output or at the first byte 0xFF,
    which its [char ch] cannot tell from [EOF]: what follows such a byte is
    never read.  It makes no other call than [popen], these [fgetc]s and
    [pclose], and returns 0. *)
Theorem capture_cmd_discard_stops_at_ff (PAGE_SIZE : Z) (cmd : string) (pipe : stream_t) :
  popen L cmd = Some pipe ->
  let r := capture_cmd L PAGE_SIZE cmd None in
  rc r = 0 /\ errs r = [] /\ file r = []
  /\ calls r =
     Popen cmd true
     :: map Fgetc (take (reads_until_stop (fgetc_values pipe)) (fgetc_values pipe ++ [EOF]))
     ++ [Pclose].
Proof.
  intros Hp. unfold capture_cmd. rewrite Hp. simpl.
  conj_split; try reflexivity. do 2 f_equal.
  induction (fgetc_values pipe) as [|v vs IH]; simpl; [reflexivity|].
  rewrite char_of_int_eof. destruct (v mod 256 =? 255); simpl; [reflexivity|].
  now rewrite IH.
Qed.

(** X15: write_file against its own comment, for a length within [int]
    (with room for the offset of 10) and an [fwrite] that stays within the
    block.  It returns -1 when the file cannot be opened, and then writes
    nothing; [len] when all was written; -2 on a short write with the
    error flag set; and [-(written + 10)] on a short write without it, so
    that the count can be read back from the code.  The result is never
    the initial -9, it is non-negative exactly on a complete write, and
    every path that opened the file closes it. *)
Theorem write_file_return_codes (fn : string) (data : list byte) (len : Z) :
  0 <= len <= Z.of_nat (length data) ->
  len + 9 <= I32.max_signed ->
  (fwrite L [] (take (Z.to_nat len) data) <= Z.to_nat len)%nat ->
  let written := Z.of_nat (fwrite L [] (take (Z.to_nat len) data)) in
  let r := write_file L fn data len in
  (fopen L fn = false -> rc r = -1 /\ file r = [])
  /\ (fopen L fn = true -> written = len -> rc r = len /\ file r = take (Z.to_nat len) data)
  /\ (fopen L fn = true -> written <> len -> ferror L = true -> rc r = -2)
  /\ (fopen L fn = true -> written <> len -> ferror L = false ->
      rc r = - (written + 10) /\ written = - rc r - 10)
  /\ (0 <= rc r <-> fopen L fn = true /\ written = len)
  /\ rc r <> -9
  /\ open_files (calls r) = 0.
Proof.
  intros Hlen Hint Hw written r.
  assert (Hmax : I32.max_signed = 2147483647) by reflexivity.
  assert (Hwr : 0 <= written <= len) by (unfold written; lia).
  assert (Hshort : I32.wrap (U64.sub 0 (U64.add written 10)) = - (written + 10)).
  { unfold U64.add, U64.sub, U64.wrap, U64.modulus, U64.width, I32.wrap, I32.modulus.
    rewrite (Z.mod_small (written + 10)) by lia.
    replace ((0 - (written + 10)) mod 2 ^ 64) with (2 ^ 64 - (written + 10))
      by (apply Z.mod_unique with (-1); lia).
    replace ((2 ^ 64 - (written + 10)) mod 2 ^ 32) with (2 ^ 32 - (written + 10))
      by (apply Z.mod_unique with (2 ^ 32 - 1); lia).
    destruct (Z.leb_spec (2 ^ 32 - (written + 10)) I32.max_signed); lia. }
  unfold r, write_file. fold written.
  destruct (fopen L fn); simpl.
  2:{ conj_split; try discriminate; auto; try lia;
        try (split; [lia|intros [Hc _]; discriminate]). }
  destruct (Z.eqb_spec written len) as [Heq|Hne]; simpl.
  - rewrite i32_wrap_small by lia.
    assert (Hall : take (fwrite L [] (take (Z.to_nat len) data)) (take (Z.to_nat len) data)
                   = take (Z.to_nat len) data).
    { apply take_ge. rewrite length_take. unfold written in Heq. lia. }
    rewrite Hall.
    conj_split; try congruence; auto; try lia.
  - destruct (ferror L); simpl.
    + conj_split; try congruence; auto; try lia;
        try (split; [lia|intros [_ Hc]; contradiction]).
    + rewrite Hshort.
      conj_split; try congruence; auto; try lia;
        try (split; [lia|intros [_ Hc]; contradiction]).
Qed.

End FilesFacts.

Lemma capture_cmd_copies_pipe_witness :
  Files.file (Files.capture_cmd Files.sample_libc 4096 "volatility" (Some "out.txt"%string))
  = [x61; x62; xff; x63].
Proof.
  apply (capture_cmd_copies_pipe Files.sample_libc 4096 "volatility" "out.txt"
           Files.sample_stream); reflexivity.
Defined.

Lemma capture_cmd_short_writes_witness :
  Files.rc (Files.capture_cmd Files.short_libc 4096 "volatility" (Some "out.txt"%string)) = 0
  /\ (length (Files.file (Files.capture_cmd Files.short_libc 4096 "volatility"
                            (Some "out.txt"%string))) <= 4)%nat.
Proof.
  destruct (capture_cmd_short_writes Files.short_libc 4096 "volatility" "out.txt"
              Files.sample_stream) as (Hrc & Hlen & _); try reflexivity.
  split; [exact Hrc|exact Hlen].
Defined.

Lemma capture_cmd_discard_stops_at_ff_witness :
  Files.calls (Files.capture_cmd Files.sample_libc 4096 "volatility" None)
  = [Files.Popen "volatility" true; Files.Fgetc 0x61; Files.Fgetc 0x62; Files.Fgetc 0xff;
     Files.Pclose].
Proof.
  apply (capture_cmd_discard_stops_at_ff Files.sample_libc 4096 "volatility"
           Files.sample_stream).
  reflexivity.
Defined.

Lemma write_file_return_codes_witness :
  Files.rc (Files.write_file Files.short_libc "vadinfo.json" [x7b; x7d] 2) = -11.
Proof.
  destruct (write_file_return_codes Files.short_libc "vadinfo.json" [x7b; x7d] 2)
    as (_ & _ & _ & Hshort & _).
  - simpl. lia.
  - vm_compute. discriminate.
  - simpl. lia.
  - apply Hshort; [reflexivity|vm_compute; discriminate|reflexivity].
Defined.

Lemma vad_iterator_self_loop_never_returns_witness :
  match vad_iterator Sample.profile 5 SampleLoop.guest 0x1000 note_node [] Sample.quiet with
  | Done _ => False
  | Fault _ => True
  end.
Proof.
  destruct (vad_iterator Sample.profile 5 SampleLoop.guest 0x1000 note_node [] Sample.quiet)
    as [r|f] eqn:Hrun; [|exact I].
  apply (vad_iterator_self_loop_never_returns Sample.profile SampleLoop.guest 0x1000
           note_node) in Hrun.
  - exact Hrun.
  - discriminate.
  - left. reflexivity.
Defined.

(** ** The names one callback builds *)

Section Names.

Variables domain_name vol_profile output_dir : string.

Local Abbreviation fire := (Output.fire domain_name vol_profile output_dir).
Local Abbreviation run := (Output.run domain_name vol_profile output_dir).
Local Abbreviation batch := (OutputNames.batch domain_name vol_profile output_dir).

Lemma batch_unfold (st : Output.state) (t : Output.trigger) :
  batch st t =
  [ Output.Mkdir (Output.LayerDir output_dir (Output.dump_count st));
    Output.QueueShellCmd
      (Output.VaddumpCmd "" domain_name vol_profile
         (Output.LayerDir output_dir (Output.dump_count st)) (Output.trigger_pid t))
      (Output.VaddumpOutput output_dir (Output.dump_count st) (Output.trigger_pid t));
    Output.QueueShellCmd
      (Output.VadinfoCmd "" domain_name vol_profile
         (Output.VadinfoJson output_dir (Output.dump_count st) (Output.trigger_pid t))
         (Output.trigger_pid t))
      (Output.VadinfoOutput output_dir (Output.dump_count st) (Output.trigger_pid t));
    Output.SetJsonRip
      (Output.VadinfoJson output_dir (Output.dump_count st) (Output.trigger_pid t))
      (x86_regs_rip (Output.trigger_event t)) ].
Proof.
  unfold OutputNames.batch, Output.fire, Output.volatility_callback_vaddump,
    Output.volatility_vaddump, Output.volatility_vadinfo, Output.add_rip_to_json.
  simpl. rewrite <- !app_assoc. apply drop_app_length.
Qed.


Lemma batch_path_seq st t e q :
  e ∈ batch st t -> q ∈ OutputNames.effect_paths e ->
  Output.path_seq q = Output.dump_count st.
Proof.
  rewrite batch_unfold. intros He Hq.
  repeat (apply elem_of_cons in He as [->|He]);
    [| | | |apply elem_of_nil in He; contradiction];
    simpl in Hq;
    repeat (apply elem_of_cons in Hq as [->|Hq]);
    try reflexivity; apply elem_of_nil in Hq; contradiction.
Qed.

(** X17: within a run that stays in the range of [int], no name built for
    one dump is built again for a later dump: the paths named by the
    effects of two different firings are different. *)
Theorem dump_names_never_collide (ts1 ts2 : list Output.trigger) (t1 t2 : Output.trigger)
  (e1 e2 : Output.effect) (q1 q2 : Output.path) :
  Z.of_nat (length (ts1 ++ t1 :: ts2)) <= I32.max_signed ->
  e1 ∈ batch (run ts1 Output.initial) t1 ->
  e2 ∈ batch (run (ts1 ++ t1 :: ts2) Output.initial) t2 ->
  q1 ∈ OutputNames.effect_paths e1 ->
  q2 ∈ OutputNames.effect_paths e2 ->
  q1 <> q2.
Proof.
  intros Hlen He1 He2 Hq1 Hq2 Heq.
  pose proof (batch_path_seq _ _ _ _ He1 Hq1) as H1.
  pose proof (batch_path_seq _ _ _ _ He2 Hq2) as H2.
  rewrite length_app in Hlen. simpl in Hlen.
  rewrite run_dump_count in H1 by lia.
  rewrite run_dump_count in H2 by (rewrite length_app; simpl; lia).
  rewrite length_app in H2. simpl in H2.
  subst q2. lia.
Qed.

End Names.

Lemma dump_names_never_collide_witness :
  Output.VadinfoJson "/tmp/out" 0 1234 <> Output.VadinfoJson "/tmp/out" 1 1234.
Proof.
  apply (dump_names_never_collide "win7" "Win7SP1x64" "/tmp/out" [] [] Sample.trigger
           Sample.trigger
           (Output.SetJsonRip (Output.VadinfoJson "/tmp/out" 0 1234) 0x20123)
           (Output.SetJsonRip (Output.VadinfoJson "/tmp/out" 1 1234) 0x20123)).
  - vm_compute. discriminate.
  - vm_compute. repeat constructor.
  - vm_compute. repeat constructor.
  - simpl. repeat constructor.
  - simpl. repeat constructor.
Defined.
